(** * price-compare: the feed-reconciliation pipeline of [src/build.py]

    A shallow embedding of [to_float], [slugify], [normalize_rows],
    [group_by_product] and of the aggregate values computed by
    [render_index] and [render_product], followed by the properties the
    specification states about them.

    Python values are modelled as follows.
    - [str]: a list of Unicode code points ([list N]).
    - [float]: an IEEE-754 binary64 value, [spec_float] with the operations of
      [SpecFloat] at precision 53.
    - a csv row ([dict] of text): a [gmap] from field name to text.
    - [products] (a [dict], iterated in insertion order by [build]): an
      association list in insertion order; [offers] (a [defaultdict(list)],
      only ever indexed by slug): a [gmap].
    - what the interpreter supplies ([str.lower], [float], [json.loads],
      the clock) is the interface [PyRuntime]; a reference instance that
      covers ASCII and Latin-1 text runs the examples. *)

From Stdlib Require Import ZArith NArith Bool Ascii String Lia.
From Stdlib Require Import Floats.SpecFloat.
From stdpp Require Import base option list sorting gmap.

Set Warnings "-register-all".
Local Open Scope N_scope.

(** ** Text *)

Abbreviation pystr := (list N).

(** A literal of the source, given as an ASCII string. *)
Definition py (s : string) : pystr := N_of_ascii <$> list_ascii_of_string s.

(** [bool(s)] for a string: non-empty. *)
Definition truthy (s : pystr) : bool :=
  match s with [] => false | _ :: _ => true end.

(** [a or b] on strings. *)
Definition str_or (a b : pystr) : pystr := if truthy a then a else b.

(** [str.isspace] for one code point: the characters [str.strip()] removes. *)
Definition is_space (c : N) : bool :=
  ((9 <=? c) && (c <=? 13)) || ((28 <=? c) && (c <=? 32))
  || (c =? 133) || (c =? 160) || (c =? 5760)
  || ((8192 <=? c) && (c <=? 8202))
  || (c =? 8232) || (c =? 8233) || (c =? 8239) || (c =? 8287) || (c =? 12288).

Fixpoint lstrip_by (p : N -> bool) (s : pystr) : pystr :=
  match s with
  | [] => []
  | c :: s' => if p c then lstrip_by p s' else s
  end.

Fixpoint rstrip_by (p : N -> bool) (s : pystr) : pystr :=
  match s with
  | [] => []
  | c :: s' =>
      match rstrip_by p s' with
      | [] => if p c then [] else [c]
      | t => c :: t
      end
  end.

Definition strip_by (p : N -> bool) (s : pystr) : pystr :=
  rstrip_by p (lstrip_by p s).

(** [s.strip()] *)
Definition strip (s : pystr) : pystr := strip_by is_space s.

(** [s.replace(a, b)] for one-character [a] and [b]. *)
Definition str_replace (a b : N) (s : pystr) : pystr :=
  (fun c => if c =? a then b else c) <$> s.

(** [re.sub(r'[cls]+', repl, s)]: scanning from the left, every maximal run of
    characters of the class is replaced by [repl]; [in_run] records that the
    previous character belonged to the run being consumed. *)
Fixpoint re_sub_run (cls : N -> bool) (repl : pystr) (in_run : bool)
    (s : pystr) : pystr :=
  match s with
  | [] => []
  | c :: s' =>
      if cls c then
        (if in_run then [] else repl) ++ re_sub_run cls repl true s'
      else c :: re_sub_run cls repl false s'
  end.

Definition re_sub_plus (cls : N -> bool) (repl s : pystr) : pystr :=
  re_sub_run cls repl false s.

Definition hyphen : N := 45.
Definition is_hyphen (c : N) : bool := c =? hyphen.

(** The character class [a-z0-9\-]. *)
Definition slug_char (c : N) : bool :=
  ((97 <=? c) && (c <=? 122)) || ((48 <=? c) && (c <=? 57)) || is_hyphen c.

(** ** Floats *)

Abbreviation float := spec_float.

Definition fadd : float -> float -> float := SFadd 53 1024.
Definition fltb : float -> float -> bool := SFltb.
Definition fleb : float -> float -> bool := SFleb.
Definition fzero : float := S754_zero false.
Definition is_nan (x : float) : bool :=
  match x with S754_nan => true | _ => false end.

(** ** JSON values, as [json.loads] builds them *)

Inductive pyjson :=
  | JNull
  | JBool (b : bool)
  | JInt (z : Z)
  | JFloat (f : float)
  | JStr (s : pystr)
  | JList (l : list pyjson)
  | JDict (d : list (pystr * pyjson)).

(** ** Insertion-ordered dictionaries *)

(** [d.get(k)] *)
Fixpoint dict_get {V : Type} (k : pystr) (d : list (pystr * V)) : option V :=
  match d with
  | [] => None
  | (k', v) :: d' => if decide (k' = k) then Some v else dict_get k d'
  end.

(** [d[k] = v]: a present key keeps its position, a new key goes last. *)
Fixpoint dict_set {V : Type} (k : pystr) (v : V) (d : list (pystr * V))
    : list (pystr * V) :=
  match d with
  | [] => [(k, v)]
  | (k', v') :: d' =>
      if decide (k' = k) then (k', v) :: d' else (k', v') :: dict_set k v d'
  end.

(** ** What the interpreter supplies *)

Class PyRuntime := {
  (** [s.lower()], by the Unicode case tables *)
  str_lower : pystr -> pystr;
  (** [float(s)]; [None] when it raises [ValueError] *)
  float_of_str : pystr -> option float;
  (** [json.loads(s)]; [None] when it raises *)
  json_loads : pystr -> option pyjson;
  (** [datetime.utcnow().isoformat()] at the n-th reading of the clock *)
  utcnow_isoformat : nat -> pystr
}.

(** [str.lower] leaves text over [a-z0-9-] alone. *)
Definition lower_fixes_slug_text (rt : PyRuntime) : Prop :=
  forall s : pystr, Forall (fun c => slug_char c = true) s -> str_lower s = s.

Section Pipeline.
Context {rt : PyRuntime}.

(** ** Value normalizer *)

Definition to_float (x : pystr) : float :=
  match float_of_str (strip (str_replace 44 46 x)) with
  | Some f => f
  | None => fzero
  end.

(** The three rewriting steps of [slugify], after lower-casing. *)
Definition slug_core (text : pystr) : pystr :=
  let text :=
    re_sub_plus (fun c => negb (slug_char c)) (py "-") (str_replace 32 hyphen text) in
  strip_by is_hyphen (re_sub_plus is_hyphen (py "-") text).

Definition slugify (text : pystr) : pystr :=
  let text := str_lower text in
  let text := slug_core text in
  str_or text (py "product").

(** ** Row validator / normalizer *)

(** [r.get(k, dflt)] *)
Definition row_get (r : gmap pystr pystr) (k dflt : string) : pystr :=
  default (py dflt) (r !! py k).

(** The dictionary [item] that [normalize_rows] builds for a row. *)
Record Item := {
  category : pystr;
  product_slug : pystr;
  product_name : pystr;
  brand : pystr;
  model : pystr;
  gtin : pystr;
  mpn : pystr;
  specs_json : pystr;
  merchant : pystr;
  price : float;
  currency : pystr;
  shipping : float;
  url : pystr;
  availability : pystr;
  updated_at : pystr
}.

(** [(r.get("brand","")+" "+r.get("model","")).strip()] *)
Definition brand_model (r : gmap pystr pystr) : pystr :=
  strip (row_get r "brand" "" ++ py " " ++ row_get r "model" "").

(** The clock is read only when the row has no [updated_at]; [tick] counts
    the readings made so far. *)
Definition make_item (tick : nat) (r : gmap pystr pystr) : Item * nat :=
  let stamp := strip (row_get r "updated_at" "") in
  let '(stamp, tick') :=
    if truthy stamp then (stamp, tick)
    else (utcnow_isoformat tick ++ py "Z", S tick) in
  ({| category := str_or (strip (row_get r "category" "")) [];
      product_slug :=
        str_or (strip (row_get r "product_slug" ""))
               (slugify (str_or (brand_model r) (row_get r "product_name" "")));
      product_name := str_or (strip (row_get r "product_name" "")) (brand_model r);
      brand := strip (row_get r "brand" "");
      model := strip (row_get r "model" "");
      gtin := strip (row_get r "gtin" "");
      mpn := strip (row_get r "mpn" "");
      specs_json := strip (row_get r "specs_json" "");
      merchant := strip (row_get r "merchant" "");
      price := to_float (row_get r "price" "0");
      currency := strip (str_or (row_get r "currency" "") (py "RUB"));
      shipping := to_float (row_get r "shipping" "0");
      url := strip (row_get r "url" "");
      availability := strip (row_get r "availability" "");
      updated_at := stamp |}, tick').

(** The guard of line 61. *)
Definition accepted (item : Item) : bool :=
  truthy (product_slug item) && truthy (merchant item)
  && fltb fzero (price item) && truthy (url item).

(** One row: the record, or nothing when the row is dropped. *)
Definition normalize_row (tick : nat) (r : gmap pystr pystr) : option Item * nat :=
  let '(item, tick') := make_item tick r in
  (if accepted item then Some item else None, tick').

(** One iteration of the loop of [normalize_rows] on the list [norm]. *)
Definition normalize_step (st : list Item * nat) (r : gmap pystr pystr)
    : list Item * nat :=
  let '(norm, tick) := st in
  match normalize_row tick r with
  | (Some item, tick') => (norm ++ [item], tick')
  | (None, tick') => (norm, tick')
  end.

Definition normalize_rows (tick : nat) (rows : list (gmap pystr pystr))
    : list Item * nat :=
  foldl normalize_step ([], tick) rows.

(** The outcome of each row of a feed, in feed order, with the clock threaded
    as in [normalize_rows]. *)
Fixpoint normalize_each (tick : nat) (rows : list (gmap pystr pystr))
    : list (option Item) :=
  match rows with
  | [] => []
  | r :: rows' =>
      (normalize_row tick r).1 :: normalize_each (normalize_row tick r).2 rows'
  end.

(** ** Reconciliation engine *)

Record Product := {
  p_slug : pystr;
  p_category : pystr;
  p_name : pystr;
  p_brand : pystr;
  p_model : pystr;
  p_gtin : pystr;
  p_mpn : pystr;
  p_specs : pyjson
}.

Record Offer := {
  o_merchant : pystr;
  o_availability : pystr;
  o_price : float;
  o_shipping : float;
  o_currency : pystr;
  o_url : pystr;
  o_total : float;
  o_updated_at : pystr
}.

(** [products] keeps insertion order; [offers] is indexed by slug only. *)
Record Catalog := {
  products : list (pystr * Product);
  offers : gmap pystr (list Offer)
}.

Definition empty_catalog : Catalog := {| products := []; offers := ∅ |}.

(** Lines 71-74: [json.loads(r.get("specs_json") or "{}")], [{}] on failure. *)
Definition parse_specs (text : pystr) : pyjson :=
  match json_loads (str_or text (py "{}")) with
  | Some specs => specs
  | None => JDict []
  end.

Definition product_of (r : Item) : Product :=
  {| p_slug := product_slug r;
     p_category := category r;
     p_name := product_name r;
     p_brand := brand r;
     p_model := model r;
     p_gtin := gtin r;
     p_mpn := mpn r;
     p_specs := parse_specs (specs_json r) |}.

Definition offer_of (r : Item) : Offer :=
  {| o_merchant := merchant r;
     o_availability := availability r;
     o_price := price r;
     o_shipping := shipping r;
     o_currency := currency r;
     o_url := url r;
     o_total := fadd (price r) (shipping r);
     o_updated_at := updated_at r |}.

(** [offers[slug].append(o)] on the [defaultdict(list)]. *)
Definition offers_append (slug : pystr) (o : Offer)
    (m : gmap pystr (list Offer)) : gmap pystr (list Offer) :=
  <[slug := default [] (m !! slug) ++ [o]]> m.

(** The body of the loop of [group_by_product]. *)
Definition group_step (c : Catalog) (r : Item) : Catalog :=
  let slug := product_slug r in
  {| products :=
       match dict_get slug (products c) with
       | Some _ => products c
       | None => dict_set slug (product_of r) (products c)
       end;
     offers := offers_append slug (offer_of r) (offers c) |}.

Definition group_from (c : Catalog) (rows : list Item) : Catalog :=
  foldl group_step c rows.

Definition group_by_product (rows : list Item) : Catalog :=
  group_from empty_catalog rows.

(** The same loop as a transition system: one rule per branch of
    [if slug not in products]. *)
Inductive group_transition : Catalog -> Item -> Catalog -> Prop :=
  | first_seen c r :
      dict_get (product_slug r) (products c) = None ->
      group_transition c r
        {| products := dict_set (product_slug r) (product_of r) (products c);
           offers := offers_append (product_slug r) (offer_of r) (offers c) |}
  | already_seen c r p :
      dict_get (product_slug r) (products c) = Some p ->
      group_transition c r
        {| products := products c;
           offers := offers_append (product_slug r) (offer_of r) (offers c) |}.

Inductive group_run : Catalog -> list Item -> Catalog -> Prop :=
  | run_done c : group_run c [] c
  | run_row c r c' rows c'' :
      group_transition c r c' -> group_run c' rows c'' ->
      group_run c (r :: rows) c''.

(** ** Aggregates *)

(** [min(l, key=key)]: the running minimum is replaced only by a strictly
    smaller key; [None] is the [ValueError] on an empty sequence. *)
Fixpoint min_from {A : Type} (key : A -> float) (cur : A) (l : list A) : A :=
  match l with
  | [] => cur
  | x :: l' => min_from key (if fltb (key x) (key cur) then x else cur) l'
  end.

Definition py_min {A : Type} (key : A -> float) (l : list A) : option A :=
  match l with
  | [] => None
  | x :: l' => Some (min_from key x l')
  end.

(** [max(l)] on floats: replaced only by a strictly greater value. *)
Fixpoint max_from (cur : float) (l : list float) : float :=
  match l with
  | [] => cur
  | x :: l' => max_from (if fltb cur x then x else cur) l'
  end.

Definition py_max (l : list float) : option float :=
  match l with
  | [] => None
  | x :: l' => Some (max_from x l')
  end.

(** [sorted(l, key=key)] is stable; where [<] totally preorders the keys its
    result is the one computed here by stable insertion. *)
Fixpoint insert_by {A : Type} (key : A -> float) (x : A) (l : list A) : list A :=
  match l with
  | [] => [x]
  | y :: l' => if fltb (key y) (key x) then y :: insert_by key x l' else x :: l
  end.

Definition py_sorted {A : Type} (key : A -> float) (l : list A) : list A :=
  foldr (insert_by key) [] l.

(** What [render_index] derives from [offs]: [min_offer] and [len(offs)]. *)
Record IndexAggregate := {
  min_offer : Offer;
  count : nat
}.

Definition render_index_aggregate (offs : list Offer) : option IndexAggregate :=
  m ← py_min o_total offs;
  Some {| min_offer := m; count := length offs |}.

(** The [AggregateOffer] block of [render_product], before formatting;
    [first_offer] is [offs_sorted[0]], [None] its [IndexError]. *)
Record AggregateOffer := {
  first_offer : Offer;
  priceCurrency : pystr;
  lowPrice : float;
  highPrice : float;
  offerCount : nat
}.

Definition render_product_aggregate (offs : list Offer) : option AggregateOffer :=
  let offs_sorted := py_sorted o_total offs in
  o ← head offs_sorted;
  hi ← py_max (o_total <$> offs_sorted);
  Some {| first_offer := o;
          priceCurrency := o_currency o;
          lowPrice := o_total o;
          highPrice := hi;
          offerCount := length offs_sorted |}.

(** [bool(v)] for a JSON value. *)
Definition json_truthy (v : pyjson) : bool :=
  match v with
  | JNull => false
  | JBool b => b
  | JInt z => negb (z =? 0)%Z
  | JFloat f => negb (SFeqb f fzero)
  | JStr s => truthy s
  | JList l => match l with [] => false | _ => true end
  | JDict d => match d with [] => false | _ => true end
  end.

(** Line 119 of [render_product]: [(product.get("specs") or {}).items()];
    [None] is the [AttributeError] of a value without [items]. *)
Definition specs_items (specs : pyjson) : option (list (pystr * pyjson)) :=
  if json_truthy specs then
    match specs with
    | JDict d => Some d
    | _ => None
    end
  else Some [].

End Pipeline.

(** ** A reference runtime

    Enough of the interpreter to run the pipeline on ASCII and Latin-1 text:
    the case table of those two blocks, [float] on ASCII numerals with
    correct rounding, a JSON reader without a nesting limit, and a clock
    that advances by a microsecond at each reading. *)

Module Ref.

(** The ASCII and Latin-1 rows of the lower-case table (215 is the
    multiplication sign, which has no case). *)
Definition lower_char (c : N) : N :=
  if ((65 <=? c) && (c <=? 90))
     || ((192 <=? c) && (c <=? 222) && negb (c =? 215))
  then c + 32 else c.

Definition lower (s : pystr) : pystr := lower_char <$> s.

Definition is_digit (c : N) : bool := (48 <=? c) && (c <=? 57).

(** [digitpart ::= digit (["_"] digit)*]: the digits read and the rest. *)
Fixpoint digitpart (s : pystr) : list N * pystr :=
  match s with
  | [] => ([], [])
  | c :: s' =>
      if is_digit c then
        let '(ds, rest) :=
          match s' with
          | u :: s'' =>
              if u =? 95 then
                match s'' with
                | d :: _ => if is_digit d then digitpart s'' else ([], s')
                | [] => ([], s')
                end
              else digitpart s'
          | [] => ([], [])
          end in
        (c - 48 :: ds, rest)
      else ([], s)
  end.

Definition digits_value (ds : list N) : Z :=
  foldl (fun acc d => (10 * acc + Z.of_N d)%Z) 0%Z ds.

(** The binary64 nearest to [m * 10 ^ e10] (ties to even), for [m > 0].
    Beyond the two cut-offs the result is an infinity or a zero whatever the
    digits are, which keeps the powers of ten small. *)
Definition decimal_to_float (neg : bool) (m : positive) (ndigits : Z) (e10 : Z)
    : float :=
  if (400 <? e10)%Z then S754_infinity neg
  else if (ndigits + e10 <? -400)%Z then S754_zero neg
  else if (0 <=? e10)%Z then
    binary_round 53 1024 neg (m * Z.to_pos (10 ^ e10)) 0
  else
    let '(q, e, loc) :=
      SFdiv_core_binary 53 1024 (Zpos m) 0 (10 ^ (- e10)) 0 in
    binary_round_aux 53 1024 neg q e loc.

Definition read_sign (s : pystr) : bool * pystr :=
  match s with
  | c :: s' =>
      if c =? 45 then (true, s') else if c =? 43 then (false, s') else (false, s)
  | [] => (false, [])
  end.

(** [floatnumber ::= ([digitpart] "." digitpart | digitpart ["."]) [exponent]] *)
Definition read_floatnumber (neg : bool) (s : pystr) : option float :=
  let '(ip, s1) := digitpart s in
  let '(fp, s2) :=
    match s1 with
    | c :: s1' => if c =? 46 then digitpart s1' else ([], s1)
    | [] => ([], [])
    end in
  if truthy ip || truthy fp then
    e ← match s2 with
        | [] => Some 0%Z
        | c :: s3 =>
            if (c =? 101) || (c =? 69) then
              let '(eneg, s4) := read_sign s3 in
              match digitpart s4 with
              | (d :: ds, []) =>
                  Some (if eneg then (- digits_value (d :: ds))%Z
                        else digits_value (d :: ds))
              | _ => None
              end
            else None
        end;
    Some match digits_value (ip ++ fp) with
         | Zpos m =>
             decimal_to_float neg m (Z.of_nat (length (ip ++ fp)))
                              (e - Z.of_nat (length fp))
         | _ => S754_zero neg
         end
  else None.

(** [float(s)] *)
Definition parse_float (s : pystr) : option float :=
  let '(neg, body) := read_sign (strip s) in
  let word := lower body in
  if decide (word = py "inf") then Some (S754_infinity neg)
  else if decide (word = py "infinity") then Some (S754_infinity neg)
  else if decide (word = py "nan") then Some S754_nan
  else read_floatnumber neg body.

(** *** [json.loads] *)

Definition is_json_space (c : N) : bool :=
  (c =? 32) || (c =? 9) || (c =? 10) || (c =? 13).

Definition skip_space (s : pystr) : pystr := lstrip_by is_json_space s.

Fixpoint strip_prefix (p s : pystr) : option pystr :=
  match p, s with
  | [], _ => Some s
  | a :: p', b :: s' => if a =? b then strip_prefix p' s' else None
  | _ :: _, [] => None
  end.

Definition hex_value (c : N) : option N :=
  if is_digit c then Some (c - 48)
  else if (97 <=? c) && (c <=? 102) then Some (c - 87)
  else if (65 <=? c) && (c <=? 70) then Some (c - 55)
  else None.

Definition read_hex4 (s : pystr) : option (N * pystr) :=
  match s with
  | a :: b :: c :: d :: rest =>
      a ← hex_value a; b ← hex_value b; c ← hex_value c; d ← hex_value d;
      Some (((a * 16 + b) * 16 + c) * 16 + d, rest)
  | _ => None
  end.

Definition simple_escape (c : N) : option N :=
  if (c =? 34) || (c =? 92) || (c =? 47) then Some c
  else if c =? 98 then Some 8
  else if c =? 102 then Some 12
  else if c =? 110 then Some 10
  else if c =? 114 then Some 13
  else if c =? 116 then Some 9
  else None.

(** The code point of an escape [\uXXXX] whose digits gave [u1], joined with
    a following low surrogate where there is one. *)
Definition read_unicode_escape (u1 : N) (rest : pystr) : option (N * pystr) :=
  if (55296 <=? u1) && (u1 <=? 56319) then
    match strip_prefix (py "\u") rest with
    | Some rest2 =>
        '(u2, rest3) ← read_hex4 rest2;
        if (56320 <=? u2) && (u2 <=? 57343)
        then Some (65536 + (u1 - 55296) * 1024 + (u2 - 56320), rest3)
        else Some (u1, rest)
    | None => Some (u1, rest)
    end
  else Some (u1, rest).

(** The text of a string literal, after its opening quote. *)
Fixpoint json_string (fuel : nat) (s : pystr) : option (pystr * pystr) :=
  match fuel with
  | O => None
  | S fuel =>
      match s with
      | [] => None
      | c :: s' =>
          if c =? 34 then Some ([], s')
          else if c =? 92 then
            match s' with
            | [] => None
            | e :: s'' =>
                '(ch, rest) ←
                  (if e =? 117 then
                     '(u1, r1) ← read_hex4 s''; read_unicode_escape u1 r1
                   else ch ← simple_escape e; Some (ch, s''));
                '(text, rest') ← json_string fuel rest;
                Some (ch :: text, rest')
            end
          else if c <? 32 then None
          else '(text, rest) ← json_string fuel s'; Some (c :: text, rest)
      end
  end.

Fixpoint plain_digits (s : pystr) : list N * pystr :=
  match s with
  | c :: s' =>
      if is_digit c then let '(ds, rest) := plain_digits s' in (c - 48 :: ds, rest)
      else ([], s)
  | [] => ([], [])
  end.

(** A number: an optional minus, then [0] or a digit string without leading
    zero, then optionally a point with digits, then optionally an exponent.
    Without fraction and exponent it is an [int], otherwise [float] of the
    matched text. *)
Definition json_number (s : pystr) : option (pyjson * pystr) :=
  let '(neg, s1) :=
    match s with
    | c :: s' => if c =? 45 then (true, s') else (false, s)
    | [] => (false, [])
    end in
  '(ip, s2) ←
    match s1 with
    | c :: s1' =>
        if c =? 48 then Some ([0], s1')
        else if is_digit c then Some (plain_digits s1)
        else None
    | [] => None
    end;
  let s3 :=
    match s2 with
    | c :: s2' =>
        if c =? 46 then
          match plain_digits s2' with
          | (_ :: _, rest) => rest
          | ([], _) => s2
          end
        else s2
    | [] => []
    end in
  let s4 :=
    match s3 with
    | c :: s3' =>
        if (c =? 101) || (c =? 69) then
          let s3'' :=
            match s3' with
            | g :: t => if (g =? 43) || (g =? 45) then t else s3'
            | [] => []
            end in
          match plain_digits s3'' with
          | (_ :: _, rest) => rest
          | ([], _) => s3
          end
        else s3
    | [] => []
    end in
  if decide (length s4 = length s2) then
    Some (JInt (if neg then - digits_value ip else digits_value ip)%Z, s2)
  else
    f ← parse_float (take (length s - length s4) s);
    Some (JFloat f, s4).

Definition json_literal (s : pystr) : option (pyjson * pystr) :=
  match strip_prefix (py "null") s with Some r => Some (JNull, r) | None =>
  match strip_prefix (py "true") s with Some r => Some (JBool true, r) | None =>
  match strip_prefix (py "false") s with Some r => Some (JBool false, r) | None =>
  match strip_prefix (py "NaN") s with Some r => Some (JFloat S754_nan, r) | None =>
  match strip_prefix (py "Infinity") s with
  | Some r => Some (JFloat (S754_infinity false), r) | None =>
  match strip_prefix (py "-Infinity") s with
  | Some r => Some (JFloat (S754_infinity true), r) | None =>
  json_number s
  end end end end end end.

(** [json_value] reads one value at the head of [s]; [json_elements] the rest
    of an array and [json_members] the rest of an object, each from its
    first item on. *)
Fixpoint json_value (fuel : nat) (s : pystr) : option (pyjson * pystr) :=
  match fuel with
  | O => None
  | S fuel =>
      match s with
      | [] => None
      | c :: s' =>
          if c =? 34 then
            '(text, rest) ← json_string (length s) s'; Some (JStr text, rest)
          else if c =? 91 then
            match skip_space s' with
            | d :: rest =>
                if d =? 93 then Some (JList [], rest)
                else '(l, rest') ← json_elements fuel (d :: rest);
                     Some (JList l, rest')
            | [] => None
            end
          else if c =? 123 then
            match skip_space s' with
            | d :: rest =>
                if d =? 125 then Some (JDict [], rest)
                else '(kvs, rest') ← json_members fuel (d :: rest);
                     Some (JDict (foldl (fun d kv => dict_set kv.1 kv.2 d) [] kvs),
                           rest')
            | [] => None
            end
          else json_literal s
      end
  end
with json_elements (fuel : nat) (s : pystr) : option (list pyjson * pystr) :=
  match fuel with
  | O => None
  | S fuel =>
      '(v, rest) ← json_value fuel s;
      match skip_space rest with
      | d :: rest' =>
          if d =? 93 then Some ([v], rest')
          else if d =? 44 then
            '(l, rest'') ← json_elements fuel (skip_space rest');
            Some (v :: l, rest'')
          else None
      | [] => None
      end
  end
with json_members (fuel : nat) (s : pystr)
    : option (list (pystr * pyjson) * pystr) :=
  match fuel with
  | O => None
  | S fuel =>
      match s with
      | q :: s' =>
          if q =? 34 then
            '(key, rest) ← json_string (length s) s';
            match skip_space rest with
            | colon :: rest1 =>
                if colon =? 58 then
                  '(v, rest2) ← json_value fuel (skip_space rest1);
                  match skip_space rest2 with
                  | d :: rest3 =>
                      if d =? 125 then Some ([(key, v)], rest3)
                      else if d =? 44 then
                        '(kvs, rest4) ← json_members fuel (skip_space rest3);
                        Some ((key, v) :: kvs, rest4)
                      else None
                  | [] => None
                  end
                else None
            | [] => None
            end
          else None
      | [] => None
      end
  end.

Definition loads (s : pystr) : option pyjson :=
  '(v, rest) ← json_value (2 * length s + 3) (skip_space s);
  if truthy (skip_space rest) then None else Some v.

(** *** The clock: microsecond [n + 1] of a fixed day at its n-th reading *)

Fixpoint decimal_digits (width : nat) (n : N) (acc : pystr) : pystr :=
  match width with
  | O => acc
  | S width => decimal_digits width (n / 10) (48 + n mod 10 :: acc)
  end.

Definition utcnow (n : nat) : pystr :=
  py "2025-01-01T00:00:00." ++ decimal_digits 6 (N.of_nat n + 1) [].

Definition runtime : PyRuntime :=
  {| str_lower := lower;
     float_of_str := parse_float;
     json_loads := loads;
     utcnow_isoformat := utcnow |}.

End Ref.

(** ** The pages and the build

    [render_index], [render_product] and [build] up to the values they hand
    to the templates: the text of the two templates is not part of the
    sources, so a page is the record of the arguments of [tpl.format]. *)

Inductive PyError := ValueError | IndexError | AttributeError.

Inductive result (A : Type) :=
  | Ok (a : A)
  | Raise (e : PyError).
Arguments Ok {A} a.
Arguments Raise {A} e.

(** The dash shown for an empty category or availability (U+2014). *)
Definition dash : pystr := [8212].

(** [a < b] on [str]: lexicographic on code points. *)
Fixpoint str_ltb (a b : pystr) : bool :=
  match a, b with
  | _, [] => false
  | [], _ :: _ => true
  | x :: a', y :: b' =>
      if x <? y then true else if y <? x then false else str_ltb a' b'
  end.

(** [a < b] on pairs of [str]: the first components decide unless equal. *)
Definition pair_ltb (a b : pystr * pystr) : bool :=
  if decide (a.1 = b.1) then str_ltb a.2 b.2 else str_ltb a.1 b.1.

(** [sorted(l, key=...)] for keys compared by [lt]: stable insertion, as
    [py_sorted] is for float keys. *)
Fixpoint insert_with {A : Type} (lt : A -> A -> bool) (x : A) (l : list A)
    : list A :=
  match l with
  | [] => [x]
  | y :: l' => if lt y x then y :: insert_with lt x l' else x :: l
  end.

Definition sorted_with {A : Type} (lt : A -> A -> bool) (l : list A) : list A :=
  foldr (insert_with lt) [] l.

(** The key of line 101: [(kv[1]["category"], kv[1]["name"])]. *)
Definition index_key (kv : pystr * Product) : pystr * pystr :=
  (p_category kv.2, p_name kv.2).

Definition index_order (kv1 kv2 : pystr * Product) : bool :=
  pair_ltb (index_key kv1) (index_key kv2).

(** The arguments of one row of the listing (lines 104-111). *)
Record IndexRow := {
  ir_cat : pystr;
  ir_slug : pystr;
  ir_name : pystr;
  ir_brand : pystr;
  ir_model : pystr;
  ir_count : nat;
  ir_price : float;
  ir_cur : pystr
}.

(** One iteration of the loop of [render_index]; [offers[slug]] on the
    [defaultdict] is the empty list for a slug it does not hold, on which
    [min] raises [ValueError]. *)
Definition index_row (offs_of : gmap pystr (list Offer)) (kv : pystr * Product)
    : result IndexRow :=
  let offs := default [] (offs_of !! kv.1) in
  match render_index_aggregate offs with
  | None => Raise ValueError
  | Some agg =>
      Ok {| ir_cat := str_or (p_category kv.2) dash;
            ir_slug := kv.1;
            ir_name := p_name kv.2;
            ir_brand := p_brand kv.2;
            ir_model := p_model kv.2;
            ir_count := count agg;
            ir_price := o_total (min_offer agg);
            ir_cur := o_currency (min_offer agg) |}
  end.

(** A loop that stops at the first exception. *)
Fixpoint for_each {A B : Type} (f : A -> result B) (l : list A)
    : result (list B) :=
  match l with
  | [] => Ok []
  | x :: l' =>
      match f x with
      | Raise e => Raise e
      | Ok y =>
          match for_each f l' with
          | Raise e => Raise e
          | Ok ys => Ok (y :: ys)
          end
      end
  end.

(** [render_index]: the rows of the listing, in the order of line 101. *)
Definition render_index (prods : list (pystr * Product))
    (offs_of : gmap pystr (list Offer)) : result (list IndexRow) :=
  for_each (index_row offs_of) (sorted_with index_order prods).

(** The arguments of one offer row of a product page (lines 122-130). *)
Record OfferRow := {
  or_merchant : pystr;
  or_avail : pystr;
  or_price : float;
  or_ship : float;
  or_total : float;
  or_cur : pystr;
  or_url : pystr
}.

Definition offer_row (o : Offer) : OfferRow :=
  {| or_merchant := o_merchant o;
     or_avail := str_or (o_availability o) dash;
     or_price := o_price o;
     or_ship := o_shipping o;
     or_total := o_total o;
     or_cur := o_currency o;
     or_url := o_url o |}.

(** [x or None] on a string. *)
Definition or_none (s : pystr) : option pystr :=
  if truthy s then Some s else None.

(** The dictionary [ld] of lines 133-147. *)
Record JsonLd := {
  ld_name : pystr;
  ld_brand : pystr;
  ld_mpn : option pystr;
  ld_gtin13 : option pystr;
  ld_offers : AggregateOffer
}.

(** What [render_product] hands to its template; an empty [pg_spec_lines]
    stands for the placeholder line. *)
Record ProductPage := {
  pg_name : pystr;
  pg_brand : pystr;
  pg_model : pystr;
  pg_spec_lines : list (pystr * pyjson);
  pg_offer_rows : list OfferRow;
  pg_json_ld : JsonLd
}.

(** [render_product]: line 119 raises [AttributeError] on specs without
    [items], line 142 [IndexError] on an empty offer list. *)
Definition render_product (slug : pystr) (product : Product) (offs : list Offer)
    : result ProductPage :=
  let offs_sorted := py_sorted o_total offs in
  match specs_items (p_specs product) with
  | None => Raise AttributeError
  | Some items =>
      match render_product_aggregate offs with
      | None => Raise IndexError
      | Some agg =>
          Ok {| pg_name := p_name product;
                pg_brand := p_brand product;
                pg_model := p_model product;
                pg_spec_lines := items;
                pg_offer_rows := offer_row <$> offs_sorted;
                pg_json_ld :=
                  {| ld_name := p_name product;
                     ld_brand := p_brand product;
                     ld_mpn := or_none (p_mpn product);
                     ld_gtin13 := or_none (p_gtin product);
                     ld_offers := agg |} |}
      end
  end.


(** Line 168: the url of the listing, then one url per product. *)
Definition sitemap_urls (base_url : pystr) (prods : list (pystr * Product))
    : list pystr :=
  (base_url ++ py "index.html")
  :: ((fun kv : pystr * Product => base_url ++ py "products/" ++ kv.1 ++ py ".html")
        <$> prods).



Section Build.
Context {rt : PyRuntime}.


End Build.

(** The slugs of a feed in the order in which they first occur. *)
Definition first_seen_slugs (slugs : list pystr) : list pystr :=
  foldl (fun seen s => if decide (s ∈ seen) then seen else seen ++ [s]) [] slugs.

(** A slug in the form [slugify] produces: not empty, over [a-z0-9-], without
    a hyphen at either end or two hyphens in a row. *)
Definition slug_normal (s : pystr) : Prop :=
  s <> [] /\ Forall (fun c => slug_char c = true) s
  /\ head s <> Some hyphen /\ last s <> Some hyphen
  /\ forall i, s !! i = Some hyphen -> s !! S i <> Some hyphen.

(** ** Vocabulary of the properties *)

(** Text over [a-z0-9-]. *)
Abbreviation slug_text := (Forall (fun c : N => slug_char c = true)).

(** No two hyphens in a row. *)
Fixpoint collapsed (s : pystr) : bool :=
  match s with
  | c :: s' =>
      match s' with
      | d :: _ => negb (is_hyphen c && is_hyphen d) && collapsed s'
      | [] => true
      end
  | [] => true
  end.

Definition no_hyphen_first (s : pystr) : Prop :=
  match s with [] => True | c :: _ => is_hyphen c = false end.

(** The records of a feed that carry a given slug, in feed order. *)
Definition with_slug (slug : pystr) (rows : list Item) : list Item :=
  filter (fun r => product_slug r = slug) rows.

(** The binary64 value of a decimal literal. *)
Definition amount (text : string) : float :=
  default fzero (Ref.parse_float (py text)).

(** The precedence in the words of the specification: an explicit slug;
    else brand and model when both are present; else the product name; else
    the fallback token.  A field is present when trimming leaves text. *)
Definition field_present (s : pystr) : bool := truthy (strip s).

Definition spec_resolve_slug {rt : PyRuntime} (r : gmap pystr pystr) : pystr :=
  let slug := strip (row_get r "product_slug" "") in
  if truthy slug then slug
  else if field_present (row_get r "brand" "")
          && field_present (row_get r "model" "")
  then slugify (row_get r "brand" "" ++ py " " ++ row_get r "model" "")
  else if field_present (row_get r "product_name" "")
  then slugify (row_get r "product_name" "")
  else py "product".


(** ** Sample feeds *)

(** The two spellings of the specification: capital O with stroke is code
    point 216, the small letter 248. *)
Definition bosch_upper : pystr := py "Bosch " ++ [216] ++ py "10".
Definition bosch_lower : pystr := py "bosch  " ++ [248] ++ py "10".

(** A row with a brand and a name but no model. *)
Definition brand_only_row : gmap pystr pystr :=
  {[ py "brand" := py "Bosch"; py "product_name" := py "Drill" ]}.

(** A row offering the product "bosch-gsr-12" at one merchant. *)
Definition bosch_row (merchant_name price_text shipping_text : string)
    : gmap pystr pystr :=
  {[ py "product_slug" := py "bosch-gsr-12";
     py "brand" := py "Bosch"; py "model" := py "GSR 12";
     py "merchant" := py merchant_name;
     py "price" := py price_text; py "shipping" := py shipping_text;
     py "currency" := py "RUB";
     py "url" := py "https://shop.example/" ++ py merchant_name ]}.

(** A feed of three rows: the second has no price. *)
Definition bosch_feed : list (gmap pystr pystr) :=
  [ bosch_row "alpha" "4500" "120"; bosch_row "beta" "" "0";
    bosch_row "gamma" "4399" "0" ].

(** The offers of that feed. *)
Definition bosch_offers : list Offer :=
  default []
    (offers (@group_by_product Ref.runtime
               (@normalize_rows Ref.runtime 0 bosch_feed).1)
     !! py "bosch-gsr-12").

(** A row that is complete but quotes a negative shipping cost. *)
Definition negative_shipping_row : gmap pystr pystr :=
  {[ py "product_name" := py "Drill"; py "merchant" := py "alpha";
     py "url" := py "https://shop.example/alpha";
     py "price" := py "10"; py "shipping" := py "-5" ]}.

(** Two rows of one product; the first quotes "nan" as shipping cost. *)
Definition nan_shipping_feed : list (gmap pystr pystr) :=
  [ bosch_row "alpha" "100" "nan"; bosch_row "beta" "1" "0" ].

(** A complete row whose specs field is the JSON list [[1]]. *)
Definition list_specs_row : gmap pystr pystr :=
  <[ py "specs_json" := py "[1]" ]> (bosch_row "alpha" "4500" "120").

(** A row with an explicit slug, a merchant, a url and a price, and neither
    name nor brand nor model. *)
Definition nameless_row : gmap pystr pystr :=
  {[ py "product_slug" := py "sku-1"; py "merchant" := py "alpha";
     py "url" := py "https://shop.example/alpha"; py "price" := py "10" ]}.

(** * Properties *)

(** ** Text helpers *)

Lemma truthy_false (s : pystr) : truthy s = false <-> s = [].
Proof. destruct s; simpl; split; congruence. Qed.

Lemma truthy_true (s : pystr) : truthy s = true <-> s <> [].
Proof. destruct s; simpl; split; congruence. Qed.

Lemma str_or_truthy (a b : pystr) : truthy b = true -> truthy (str_or a b) = true.
Proof. unfold str_or. destruct (truthy a) eqn:E; auto. Qed.

Section Strip.
Variable p : N -> bool.

Lemma lstrip_by_Forall (Q : N -> Prop) s : Forall Q s -> Forall Q (lstrip_by p s).
Proof.
  induction 1 as [|c s Hc Hs IH]; simpl; [constructor|].
  destruct (p c); [exact IH | by constructor].
Qed.

Lemma rstrip_by_Forall (Q : N -> Prop) s : Forall Q s -> Forall Q (rstrip_by p s).
Proof.
  induction 1 as [|c s Hc Hs IH]; simpl; [constructor|].
  destruct (rstrip_by p s) as [|d t].
  - destruct (p c); repeat constructor; done.
  - by constructor.
Qed.

(** What is left of the left strip does not start with a stripped character. *)
Lemma lstrip_by_head s : 
  match lstrip_by p s with [] => True | c :: _ => p c = false end.
Proof.
  induction s as [|c s IH]; simpl; [done|].
  destruct (p c) eqn:E; [exact IH | exact E].
Qed.

Lemma lstrip_by_fixed s :
  match s with [] => True | c :: _ => p c = false end -> lstrip_by p s = s.
Proof. destruct s as [|c s]; simpl; [done|]. by intros ->. Qed.

(** The right strip keeps the first character of what it leaves. *)
Lemma rstrip_by_head s :
  match rstrip_by p s with [] => True | c :: _ => head s = Some c end.
Proof.
  destruct s as [|c s]; simpl; [done|].
  destruct (rstrip_by p s); [destruct (p c)|]; done.
Qed.

Lemma rstrip_by_idemp s : rstrip_by p (rstrip_by p s) = rstrip_by p s.
Proof.
  induction s as [|c s IH]; simpl; [done|].
  destruct (rstrip_by p s) as [|d t] eqn:E.
  - destruct (p c) eqn:Ec; simpl; [done | by rewrite Ec].
  - simpl in *. by rewrite IH.
Qed.

Lemma strip_by_lstrip s : lstrip_by p (strip_by p s) = strip_by p s.
Proof.
  unfold strip_by. apply lstrip_by_fixed.
  pose proof (rstrip_by_head (lstrip_by p s)) as Hr.
  pose proof (lstrip_by_head s) as Hl.
  destruct (rstrip_by p (lstrip_by p s)) as [|c t]; [done|].
  destruct (lstrip_by p s) as [|c' t']; simpl in Hr; [done|].
  by inversion Hr; subst.
Qed.

Lemma strip_by_idemp s : strip_by p (strip_by p s) = strip_by p s.
Proof.
  unfold strip_by at 1. rewrite strip_by_lstrip.
  unfold strip_by. apply rstrip_by_idemp.
Qed.

Lemma lstrip_by_all s : Forall (fun c => p c = true) s -> lstrip_by p s = [].
Proof. induction 1 as [|c s Hc Hs IH]; simpl; [done|]. by rewrite Hc. Qed.

Lemma rstrip_by_nil s : rstrip_by p s = [] <-> Forall (fun c => p c = true) s.
Proof.
  induction s as [|c s IH]; simpl; [by split; [constructor|]|].
  destruct (rstrip_by p s) as [|d t].
  - destruct (p c) eqn:Ec; split; try done.
    + intros _. constructor; [done|]. by apply IH.
    + inversion 1; congruence.
  - split; [done|]. inversion 1 as [|? ? ? Hs]; subst.
    by apply IH in Hs.
Qed.

Lemma lstrip_by_nil s : lstrip_by p s = [] <-> Forall (fun c => p c = true) s.
Proof.
  split; [|apply lstrip_by_all].
  induction s as [|c s IH]; simpl; [constructor|].
  destruct (p c) eqn:Ec; [|done]. intros H. constructor; auto.
Qed.

Lemma lstrip_by_suffix s : exists pre, s = pre ++ lstrip_by p s /\ Forall (fun c => p c = true) pre.
Proof.
  induction s as [|c s (pre & Hpre & Hall)]; simpl.
  - by exists [].
  - destruct (p c) eqn:Ec.
    + exists (c :: pre). split; [simpl; congruence | by constructor].
    + by exists [].
Qed.

(** Stripping leaves nothing exactly when every character is stripped. *)
Lemma strip_by_nil s : strip_by p s = [] <-> Forall (fun c => p c = true) s.
Proof.
  unfold strip_by. rewrite rstrip_by_nil.
  destruct (lstrip_by_suffix s) as (pre & Hpre & Hall).
  split.
  - intros H. rewrite Hpre. apply Forall_app; split; done.
  - intros H. rewrite Hpre in H. by apply Forall_app in H as [_ H].
Qed.

End Strip.

(** ** The rewriting steps of [slugify] *)

Lemma slug_char_hyphen : slug_char hyphen = true.
Proof. reflexivity. Qed.

Lemma slug_char_not_space c : slug_char c = true -> (c =? 32) = false.
Proof.
  intros H. destruct (N.eqb_spec c 32) as [->|]; [|done].
  vm_compute in H. discriminate.
Qed.

Lemma str_replace_slug_text s : slug_text s -> str_replace 32 hyphen s = s.
Proof.
  unfold str_replace. induction 1 as [|c s Hc Hs IH]; simpl; [done|].
  rewrite (slug_char_not_space c Hc). f_equal. exact IH.
Qed.

Lemma re_sub_run_Forall (Q : N -> Prop) cls repl b s :
  Forall Q repl -> Forall (fun c => cls c = false -> Q c) s ->
  Forall Q (re_sub_run cls repl b s).
Proof.
  intros Hrepl Hs. revert b.
  induction Hs as [|c s Hc Hs IH]; intros b; simpl; [constructor|].
  destruct (cls c) eqn:Ec.
  - apply Forall_app. split; [|apply IH]. destruct b; [constructor | done].
  - constructor; auto.
Qed.

(** A text without a character of the class is left alone. *)
Lemma re_sub_run_no_match cls repl b s :
  Forall (fun c => cls c = false) s -> re_sub_run cls repl b s = s.
Proof.
  intros Hs. revert b.
  induction Hs as [|c s Hc Hs IH]; intros b; simpl; [done|].
  rewrite Hc. f_equal. apply IH.
Qed.

Lemma collapsed_cons c d t :
  collapsed (c :: d :: t) = negb (is_hyphen c && is_hyphen d) && collapsed (d :: t).
Proof. reflexivity. Qed.

Lemma collapse_in_run_head s :
  no_hyphen_first (re_sub_run is_hyphen (py "-") true s).
Proof.
  induction s as [|c s IH]; simpl; [done|].
  destruct (is_hyphen c) eqn:Ec; simpl; [exact IH | exact Ec].
Qed.

Lemma collapse_collapsed b s :
  collapsed (re_sub_run is_hyphen (py "-") b s) = true.
Proof.
  revert b. induction s as [|c s IH]; intros b; [done|].
  cbn [re_sub_run]. destruct (is_hyphen c) eqn:Ec.
  - destruct b; [apply IH|].
    change (py "-" ++ ?t) with (hyphen :: t).
    pose proof (collapse_in_run_head s) as Hh. specialize (IH true).
    destruct (re_sub_run is_hyphen (py "-") true s) as [|d t]; [done|].
    rewrite collapsed_cons. simpl in Hh. rewrite Hh, andb_false_r. exact IH.
  - specialize (IH false).
    destruct (re_sub_run is_hyphen (py "-") false s) as [|d t]; [done|].
    rewrite collapsed_cons, Ec. exact IH.
Qed.

Lemma collapse_fixed b s :
  collapsed s = true -> (b = true -> no_hyphen_first s) ->
  re_sub_run is_hyphen (py "-") b s = s.
Proof.
  revert b. induction s as [|c s IH]; intros b Hc Hb; [done|].
  cbn [re_sub_run]. destruct (is_hyphen c) eqn:Ec.
  - destruct b; [specialize (Hb eq_refl); simpl in Hb; congruence|].
    change (py "-" ++ ?t) with (hyphen :: t).
    apply N.eqb_eq in Ec as Ec'. subst c. f_equal.
    destruct s as [|d s]; [done|].
    rewrite collapsed_cons in Hc. apply andb_prop in Hc as [Hd Hc].
    apply IH; [done|]. intros _. simpl.
    change (is_hyphen hyphen) with true in Hd. simpl in Hd.
    by destruct (is_hyphen d).
  - f_equal. destruct s as [|d s]; [done|].
    rewrite collapsed_cons in Hc. apply andb_prop in Hc as [_ Hc].
    apply IH; [done | discriminate].
Qed.

Lemma collapsed_tail c s : collapsed (c :: s) = true -> collapsed s = true.
Proof.
  destruct s as [|d s]; [done|]. rewrite collapsed_cons.
  intros H. by apply andb_prop in H as [_ H].
Qed.

Lemma lstrip_by_collapsed p s :
  collapsed s = true -> collapsed (lstrip_by p s) = true.
Proof.
  induction s as [|c s IH]; [done|]. intros H. simpl.
  destruct (p c); [|done]. apply IH. by apply collapsed_tail in H.
Qed.

Lemma rstrip_by_collapsed p s :
  collapsed s = true -> collapsed (rstrip_by p s) = true.
Proof.
  induction s as [|c s IH]; [done|]. intros H.
  pose proof (rstrip_by_head p s) as Hh. simpl.
  destruct (rstrip_by p s) as [|d t] eqn:E.
  - by destruct (p c).
  - destruct s as [|d' s]; [done|]. simpl in Hh. inversion Hh; subst d'.
    rewrite collapsed_cons in H |- *. apply andb_prop in H as [H1 H2].
    rewrite H1. simpl. by apply IH.
Qed.

Section SlugCore.
Context {rt : PyRuntime}.

Lemma slug_core_slug_text text : slug_text (slug_core text).
Proof.
  unfold slug_core, strip_by.
  apply rstrip_by_Forall, lstrip_by_Forall.
  apply re_sub_run_Forall; [by repeat constructor|].
  apply Forall_impl with (P := fun c => slug_char c = true); [|done].
  apply re_sub_run_Forall; [by repeat constructor|].
  apply Forall_forall. intros c _ Hc. by apply negb_false_iff in Hc.
Qed.

(** [slug_core] does nothing to a text it produced. *)
Lemma slug_core_idemp text : slug_core (slug_core text) = slug_core text.
Proof.
  pose proof (slug_core_slug_text text) as Hst.
  unfold slug_core at 1.
  rewrite (str_replace_slug_text _ Hst).
  unfold re_sub_plus at 2. rewrite re_sub_run_no_match.
  2:{ eapply Forall_impl; [exact Hst|]. simpl. by intros c ->. }
  unfold re_sub_plus. rewrite collapse_fixed; [| |discriminate].
  - unfold slug_core. apply strip_by_idemp.
  - unfold slug_core, strip_by.
    apply rstrip_by_collapsed, lstrip_by_collapsed, collapse_collapsed.
Qed.

Lemma slugify_slug_text text : slug_text (slugify text).
Proof.
  unfold slugify, str_or.
  destruct (truthy (slug_core (str_lower text))).
  - apply slug_core_slug_text.
  - by repeat constructor.
Qed.

Lemma slugify_truthy text : truthy (slugify text) = true.
Proof. unfold slugify. by apply str_or_truthy. Qed.

Lemma slugify_idemp text :
  lower_fixes_slug_text rt -> slugify (slugify text) = slugify text.
Proof.
  intros Hlow. unfold slugify at 1.
  rewrite (Hlow _ (slugify_slug_text text)).
  unfold slugify, str_or.
  destruct (truthy (slug_core (str_lower text))) eqn:E.
  - by rewrite slug_core_idemp, E.
  - reflexivity.
Qed.

End SlugCore.

(** ** The reference runtime meets the assumption on [str.lower] *)

Lemma ref_lower_char_slug c : slug_char c = true -> Ref.lower_char c = c.
Proof.
  unfold slug_char, is_hyphen, hyphen, Ref.lower_char. intros H.
  destruct (N.leb_spec 65 c), (N.leb_spec c 90), (N.leb_spec 192 c),
    (N.leb_spec c 222), (N.eqb_spec c 215); simpl; try reflexivity;
    destruct (N.leb_spec 97 c), (N.leb_spec c 122), (N.leb_spec 48 c),
      (N.leb_spec c 57), (N.eqb_spec c 45); simpl in H;
    try discriminate; lia.
Qed.

Lemma ref_lower_fixes_slug_text : lower_fixes_slug_text Ref.runtime.
Proof.
  intros s Hs. change (Ref.lower_char <$> s = s).
  induction Hs as [|c s Hc Hs IH]; [done|].
  rewrite fmap_cons. by rewrite (ref_lower_char_slug c Hc), IH.
Qed.

(** ** C6: [slugify] is idempotent and pure *)

(** C6. Whenever [str.lower] leaves text over [a-z0-9-] alone (as the Unicode
    tables do), [slugify (slugify x) = slugify x] for every [x]; the result
    depends on [x] and on the case table only, not on the clock or any other
    part of the runtime; and "Bosch O10" and "bosch  o10" (O with stroke),
    with the second the lower-case form of the first up to the doubled
    space, both become "bosch-10". *)
Theorem slugify_idempotent_pure (rt : PyRuntime) :
  lower_fixes_slug_text rt ->
  (forall x : pystr, slugify (slugify x) = slugify x)
  /\ (forall rt' : PyRuntime,
        (forall s, @str_lower rt' s = @str_lower rt s) ->
        forall x, @slugify rt' x = @slugify rt x)
  /\ (str_lower bosch_upper = py "bosch " ++ [248] ++ py "10" ->
      str_lower bosch_lower = bosch_lower ->
      slugify bosch_upper = py "bosch-10" /\ slugify bosch_lower = py "bosch-10").
Proof.
  intros Hlow. split; [|split].
  - intros x. by apply slugify_idemp.
  - intros rt' Heq x. unfold slugify. by rewrite Heq.
  - intros Hu Hl. unfold slugify. rewrite Hu, Hl. split; reflexivity.
Qed.

Lemma slugify_idempotent_pure_witness :
  lower_fixes_slug_text Ref.runtime
  /\ @slugify Ref.runtime (@slugify Ref.runtime (py "Bosch GSR 12V-15"))
     = @slugify Ref.runtime (py "Bosch GSR 12V-15")
  /\ @slugify Ref.runtime bosch_upper = @slugify Ref.runtime bosch_lower.
Proof.
  split; [exact ref_lower_fixes_slug_text|].
  destruct (slugify_idempotent_pure Ref.runtime ref_lower_fixes_slug_text)
    as (Hidem & _ & Hex).
  split; [apply Hidem|].
  destruct (Hex eq_refl eq_refl) as [-> ->]. reflexivity.
Defined.

(** ** The row normalizer *)

Section Normalize.
Context {rt : PyRuntime}.

Lemma make_item_product_slug tick r :
  product_slug (make_item tick r).1 =
  str_or (strip (row_get r "product_slug" ""))
         (slugify (str_or (brand_model r) (row_get r "product_name" ""))).
Proof. unfold make_item. by destruct (truthy _). Qed.

Lemma make_item_merchant tick r :
  merchant (make_item tick r).1 = strip (row_get r "merchant" "").
Proof. unfold make_item. by destruct (truthy _). Qed.

Lemma make_item_url tick r :
  url (make_item tick r).1 = strip (row_get r "url" "").
Proof. unfold make_item. by destruct (truthy _). Qed.

Lemma make_item_price tick r :
  price (make_item tick r).1 = to_float (row_get r "price" "0").
Proof. unfold make_item. by destruct (truthy _). Qed.

Lemma make_item_shipping tick r :
  shipping (make_item tick r).1 = to_float (row_get r "shipping" "0").
Proof. unfold make_item. by destruct (truthy _). Qed.

Lemma make_item_specs_json tick r :
  specs_json (make_item tick r).1 = strip (row_get r "specs_json" "").
Proof. unfold make_item. by destruct (truthy _). Qed.

Lemma normalize_row_item tick r :
  (normalize_row tick r).1 =
  (if accepted (make_item tick r).1 then Some (make_item tick r).1 else None).
Proof. unfold normalize_row. by destruct (make_item tick r). Qed.

Lemma normalize_row_tick tick r : (normalize_row tick r).2 = (make_item tick r).2.
Proof. unfold normalize_row. by destruct (make_item tick r). Qed.

Lemma normalize_row_Some tick r item :
  (normalize_row tick r).1 = Some item ->
  item = (make_item tick r).1 /\ accepted item = true.
Proof.
  rewrite normalize_row_item.
  destruct (accepted (make_item tick r).1) eqn:E; [|done].
  intros [= <-]. done.
Qed.

(** The loop of [normalize_rows] from any accumulator. *)
Lemma normalize_fold norm tick rows :
  foldl normalize_step (norm, tick) rows =
  (norm ++ (normalize_rows tick rows).1, (normalize_rows tick rows).2).
Proof.
  unfold normalize_rows. revert norm tick.
  induction rows as [|r rows IH]; intros norm tick; simpl.
  - by rewrite app_nil_r.
  - destruct (normalize_row tick r) as [[item|] tick'].
    + rewrite (IH (norm ++ [item])), (IH [item]). simpl.
      by rewrite <- app_assoc.
    + rewrite (IH norm), (IH []). done.
Qed.

Lemma normalize_rows_nil tick : normalize_rows tick [] = ([], tick).
Proof. reflexivity. Qed.

Lemma normalize_rows_cons tick r rows :
  normalize_rows tick (r :: rows) =
  (option_list (normalize_row tick r).1
     ++ (normalize_rows (normalize_row tick r).2 rows).1,
   (normalize_rows (normalize_row tick r).2 rows).2).
Proof.
  unfold normalize_rows at 1. simpl.
  destruct (normalize_row tick r) as [[item|] tick']; simpl;
    by rewrite normalize_fold.
Qed.

Lemma normalize_rows_app tick rows1 rows2 :
  normalize_rows tick (rows1 ++ rows2) =
  ((normalize_rows tick rows1).1
     ++ (normalize_rows (normalize_rows tick rows1).2 rows2).1,
   (normalize_rows (normalize_rows tick rows1).2 rows2).2).
Proof.
  unfold normalize_rows at 1. rewrite foldl_app.
  fold (normalize_rows tick rows1).
  destruct (normalize_rows tick rows1) as [norm tick'].
  by rewrite normalize_fold.
Qed.

Lemma normalize_rows_accepted tick rows item :
  item ∈ (normalize_rows tick rows).1 -> accepted item = true.
Proof.
  revert tick. induction rows as [|r rows IH]; intros tick.
  - rewrite normalize_rows_nil. simpl. by intros ?%elem_of_nil.
  - rewrite normalize_rows_cons. simpl. intros [H|H]%elem_of_app.
    + destruct (normalize_row tick r).1 as [item'|] eqn:E; simpl in H.
      * apply list_elem_of_singleton in H as ->.
        by apply normalize_row_Some in E as [_ ?].
      * by apply elem_of_nil in H.
    + by apply IH in H.
Qed.

End Normalize.

(** ** Comparisons with zero *)

Lemma fleb_zero_not_positive (x : float) :
  fleb x fzero = true -> fltb fzero x = false.
Proof. by destruct x as [s|[]| |[] m e]. Qed.

Lemma fltb_zero_not_nan (x : float) : fltb fzero x = true -> is_nan x = false.
Proof. by destruct x. Qed.

Lemma fltb_zero_nonneg (x : float) : fltb fzero x = true -> fleb fzero x = true.
Proof. by destruct x as [s|[]| |[] m e]. Qed.

(** ** C1: the identity resolver *)

(** On [brand_only_row] the code resolves to "bosch", the wording to
    "drill". *)
Lemma slug_precedence_both_present_fails :
  product_slug (@make_item Ref.runtime 0 brand_only_row).1 = py "bosch"
  /\ @spec_resolve_slug Ref.runtime brand_only_row = py "drill"
  /\ product_slug (@make_item Ref.runtime 0 brand_only_row).1
     <> @spec_resolve_slug Ref.runtime brand_only_row.
Proof. split; [|split]; [by vm_compute | by vm_compute | by vm_compute]. Qed.

Lemma brand_model_truthy {rt : PyRuntime} (r : gmap pystr pystr) :
  truthy (brand_model r) = true <->
  strip (row_get r "brand" "") <> [] \/ strip (row_get r "model" "") <> [].
Proof.
  rewrite truthy_true. unfold brand_model, strip.
  rewrite !strip_by_nil, !Forall_app.
  destruct (decide (Forall (fun c => is_space c = true) (row_get r "brand" "")))
    as [Hb|Hb];
  destruct (decide (Forall (fun c => is_space c = true) (row_get r "model" "")))
    as [Hm|Hm]; split; try tauto.
  intros H. exfalso. apply H. repeat split; try done. by repeat constructor.
Qed.

(** C1, amended. The slug of every row is: the explicit slug field, trimmed,
    when that is not blank; otherwise [slugify] of the trimmed
    [brand + " " + model] when that is not blank, which is the case as soon
    as one of brand and model is not blank; otherwise
    [slugify (product_name)].  [slugify] itself supplies the fallback token
    "product" when no slug character is left, so the slug is never empty. *)
Theorem slug_precedence (rt : PyRuntime) (tick : nat) (r : gmap pystr pystr) :
  let slug := product_slug (make_item tick r).1 in
  let explicit := strip (row_get r "product_slug" "") in
  (explicit <> [] -> slug = explicit)
  /\ (explicit = [] -> brand_model r <> [] -> slug = slugify (brand_model r))
  /\ (brand_model r <> [] <->
      strip (row_get r "brand" "") <> [] \/ strip (row_get r "model" "") <> [])
  /\ (explicit = [] -> brand_model r = [] ->
      slug = slugify (row_get r "product_name" ""))
  /\ (forall text, slug_core (str_lower text) = [] -> slugify text = py "product")
  /\ slug <> [].
Proof.
  cbv zeta. rewrite make_item_product_slug. unfold str_or.
  split; [|split; [|split; [|split; [|split]]]].
  - intros H%truthy_true. by rewrite H.
  - intros -> H%truthy_true. simpl. by rewrite H.
  - rewrite <- truthy_true. apply brand_model_truthy.
  - intros -> ->. reflexivity.
  - intros text H. unfold slugify. by rewrite H.
  - apply truthy_true.
    destruct (truthy (strip (row_get r "product_slug" ""))) eqn:E; [done|].
    apply slugify_truthy.
Qed.

(** ** C2: rows without url, merchant or positive price are dropped *)

(** C2. A row whose url or merchant is empty (or blank), or whose parsed
    price is at most 0, gives no record: [normalize_row] returns nothing,
    and wherever the row stands in a feed the records, and so the catalog,
    are those of the rows before and after it.  Conversely every record
    produced has a non-empty slug, merchant and url and a price above 0. *)
Theorem dropped_rows_and_record_invariant (rt : PyRuntime) (r : gmap pystr pystr) :
  strip (row_get r "url" "") = []
  \/ strip (row_get r "merchant" "") = []
  \/ fleb (to_float (row_get r "price" "0")) fzero = true ->
  (forall tick, (normalize_row tick r).1 = None)
  /\ (forall tick before after,
        let tick1 := (normalize_rows tick before).2 in
        let tick2 := (normalize_row tick1 r).2 in
        (normalize_rows tick (before ++ r :: after)).1
        = (normalize_rows tick before).1 ++ (normalize_rows tick2 after).1
        /\ group_by_product (normalize_rows tick (before ++ r :: after)).1
           = group_by_product
               ((normalize_rows tick before).1 ++ (normalize_rows tick2 after).1))
  /\ (forall tick rows item,
        item ∈ (normalize_rows tick rows).1 ->
        product_slug item <> [] /\ merchant item <> [] /\ url item <> []
        /\ fltb fzero (price item) = true).
Proof.
  intros Hdrop.
  assert (Hnone : forall tick, (normalize_row tick r).1 = None).
  { intros tick. rewrite normalize_row_item.
    assert (accepted (make_item tick r).1 = false) as ->; [|done].
    unfold accepted.
    rewrite make_item_merchant, make_item_url, make_item_price.
    destruct Hdrop as [H|[H|H]].
    - rewrite H. simpl. by rewrite andb_false_r.
    - rewrite H. simpl. by rewrite andb_false_r.
    - rewrite (fleb_zero_not_positive _ H). simpl.
      by rewrite andb_false_r. }
  split; [exact Hnone|]. split.
  - intros tick before after. cbv zeta.
    assert (Heq : (normalize_rows tick (before ++ r :: after)).1
      = (normalize_rows tick before).1
        ++ (normalize_rows (normalize_row (normalize_rows tick before).2 r).2
              after).1).
    { rewrite normalize_rows_app, normalize_rows_cons. simpl.
      by rewrite Hnone. }
    split; [exact Heq | by rewrite Heq].
  - intros tick rows item Hin.
    apply normalize_rows_accepted in Hin. unfold accepted in Hin.
    apply andb_prop in Hin as [Hin Hu]. apply andb_prop in Hin as [Hin Hp].
    apply andb_prop in Hin as [Hs Hm].
    by rewrite <- !truthy_true.
Qed.

Lemma dropped_rows_and_record_invariant_witness :
  fleb (@to_float Ref.runtime (row_get (bosch_row "beta" "" "0") "price" "0"))
       fzero = true
  /\ (@normalize_row Ref.runtime 0 (bosch_row "beta" "" "0")).1 = None
  /\ length (@normalize_rows Ref.runtime 0 bosch_feed).1 = 2%nat.
Proof.
  assert (H : fleb (@to_float Ref.runtime
                      (row_get (bosch_row "beta" "" "0") "price" "0"))
                   fzero = true) by (vm_compute; reflexivity).
  split; [exact H|].
  destruct (dropped_rows_and_record_invariant Ref.runtime
              (bosch_row "beta" "" "0") (or_intror (or_intror H)))
    as (Hnone & Hfeed & _).
  split; [apply Hnone|].
  destruct (Hfeed 0%nat [bosch_row "alpha" "4500" "120"]
                  [bosch_row "gamma" "4399" "0"]) as [Heq _].
  change (length (@normalize_rows Ref.runtime 0
            ([bosch_row "alpha" "4500" "120"]
               ++ bosch_row "beta" "" "0" :: [bosch_row "gamma" "4399" "0"])).1
          = 2%nat).
  rewrite Heq. vm_compute. reflexivity.
Defined.

(** ** C8: the amounts of a record *)

(** The row is accepted and its shipping amount is -5.0, below zero. *)
Lemma shipping_can_be_negative :
  exists item,
    (@normalize_row Ref.runtime 0 negative_shipping_row).1 = Some item
    /\ shipping item = S754_finite true 5629499534213120 (-50)
    /\ fltb (shipping item) fzero = true
    /\ fleb fzero (shipping item) = false.
Proof. eexists. vm_compute. repeat split. Qed.

Section Amounts.
Context {rt : PyRuntime}.

Lemma normalize_rows_source tick rows item :
  item ∈ (normalize_rows tick rows).1 ->
  exists r tick', r ∈ rows /\ item = (make_item tick' r).1.
Proof.
  revert tick. induction rows as [|r rows IH]; intros tick.
  - rewrite normalize_rows_nil. simpl. by intros ?%elem_of_nil.
  - rewrite normalize_rows_cons. simpl. intros [H|H]%elem_of_app.
    + destruct (normalize_row tick r).1 as [item'|] eqn:E; simpl in H.
      * apply list_elem_of_singleton in H as ->.
        apply normalize_row_Some in E as [-> _].
        exists r, tick. split; [left | done].
      * by apply elem_of_nil in H.
    + apply IH in H as (r' & tick' & Hin & ->).
      exists r', tick'. split; [by right | done].
Qed.

Lemma accepted_make_item tick r :
  accepted (make_item tick r).1 =
  truthy (strip (row_get r "merchant" ""))
  && fltb fzero (to_float (row_get r "price" "0"))
  && truthy (strip (row_get r "url" "")).
Proof.
  unfold accepted.
  rewrite make_item_merchant, make_item_url, make_item_price.
  assert (truthy (product_slug (make_item tick r).1) = true) as ->; [|done].
  rewrite make_item_product_slug. unfold str_or.
  destruct (truthy (strip (row_get r "product_slug" ""))) eqn:E; [done|].
  apply slugify_truthy.
Qed.

End Amounts.

(** C8, amended. In every record produced the price is above 0 (so it is
    non-negative and not NaN) and price and shipping are what [to_float]
    reads in the row; [to_float] gives 0.0 for text that [float] rejects
    and never fails, so malformed shipping text does not lose a row that
    has a merchant, a url and a price above 0: its shipping is 0.0.
    Nothing keeps the shipping amount at or above zero. *)
Theorem record_amounts (rt : PyRuntime) (tick : nat)
    (rows : list (gmap pystr pystr)) (item : Item) :
  item ∈ (normalize_rows tick rows).1 ->
  (fltb fzero (price item) = true /\ fleb fzero (price item) = true
   /\ is_nan (price item) = false)
  /\ (exists r, r ∈ rows
        /\ price item = to_float (row_get r "price" "0")
        /\ shipping item = to_float (row_get r "shipping" "0"))
  /\ (forall text, float_of_str (strip (str_replace 44 46 text)) = None ->
        to_float text = fzero)
  /\ (forall tick' r,
        strip (row_get r "merchant" "") <> [] ->
        strip (row_get r "url" "") <> [] ->
        fltb fzero (to_float (row_get r "price" "0")) = true ->
        float_of_str (strip (str_replace 44 46 (row_get r "shipping" "0"))) = None ->
        exists item', (normalize_row tick' r).1 = Some item'
                      /\ shipping item' = fzero).
Proof.
  intros Hin. split; [|split; [|split]].
  - apply normalize_rows_accepted in Hin. unfold accepted in Hin.
    apply andb_prop in Hin as [Hin _]. apply andb_prop in Hin as [_ Hp].
    split; [done|]. split; [by apply fltb_zero_nonneg | by apply fltb_zero_not_nan].
  - apply normalize_rows_source in Hin as (r & tick' & Hr & ->).
    exists r. by rewrite make_item_price, make_item_shipping.
  - intros text H. unfold to_float. by rewrite H.
  - intros tick' r Hm%truthy_true Hu%truthy_true Hp Hs.
    exists (make_item tick' r).1. split.
    + rewrite normalize_row_item, accepted_make_item. by rewrite Hm, Hu, Hp.
    + rewrite make_item_shipping. unfold to_float. by rewrite Hs.
Qed.

Lemma record_amounts_witness :
  exists item,
    item ∈ (@normalize_rows Ref.runtime 0 bosch_feed).1
    /\ fltb fzero (price item) = true
    /\ price item = S754_finite false 4947802324992000 (-40).
Proof.
  eexists. split; [|split].
  - vm_compute. left.
  - apply (record_amounts Ref.runtime 0 bosch_feed). vm_compute. left.
  - reflexivity.
Defined.

(** ** Insertion-ordered dictionaries *)

Lemma dict_get_set {V : Type} (k k' : pystr) (v : V) d :
  dict_get k' (dict_set k v d) = if decide (k = k') then Some v else dict_get k' d.
Proof.
  induction d as [|[k0 v0] d IH]; simpl.
  - by repeat case_decide.
  - destruct (decide (k0 = k)) as [->|Hne]; simpl.
    + by repeat case_decide.
    + rewrite IH. repeat case_decide; congruence.
Qed.

(** A new key goes last. *)
Lemma dict_set_new {V : Type} (k : pystr) (v : V) d :
  dict_get k d = None -> dict_set k v d = d ++ [(k, v)].
Proof.
  induction d as [|[k0 v0] d IH]; simpl; [done|].
  case_decide; [done|]. intros Hd. by rewrite IH.
Qed.

(** ** The reconciliation loop *)

Section Group.
Context {rt : PyRuntime}.

Lemma group_from_cons c r rows :
  group_from c (r :: rows) = group_from (group_step c r) rows.
Proof. reflexivity. Qed.

Lemma group_step_offers c r slug :
  offers (group_step c r) !! slug =
  if decide (product_slug r = slug)
  then Some (default [] (offers c !! slug) ++ [offer_of r])
  else offers c !! slug.
Proof.
  unfold group_step, offers_append. simpl.
  rewrite lookup_insert. case_decide; [by subst | done].
Qed.

Lemma group_step_products c r slug :
  dict_get slug (products (group_step c r)) =
  match dict_get slug (products c) with
  | Some p => Some p
  | None => if decide (product_slug r = slug) then Some (product_of r) else None
  end.
Proof.
  unfold group_step. simpl.
  destruct (dict_get (product_slug r) (products c)) as [p|] eqn:E.
  - destruct (dict_get slug (products c)) as [q|] eqn:E'; [done|].
    case_decide; [congruence | done].
  - rewrite dict_get_set. case_decide.
    + subst. by rewrite E.
    + by destruct (dict_get slug (products c)).
Qed.

(** The offers of a slug after a run: those it had, then one offer per
    record with that slug, in feed order. *)
Lemma group_from_offers rows c slug :
  offers (group_from c rows) !! slug =
  match with_slug slug rows with
  | [] => offers c !! slug
  | l => Some (default [] (offers c !! slug) ++ (offer_of <$> l))
  end.
Proof.
  revert c. induction rows as [|r rows IH]; intros c; [done|].
  rewrite group_from_cons, IH, group_step_offers. unfold with_slug.
  rewrite filter_cons. case_decide as Hs.
  - simpl. destruct (filter _ rows) as [|r' l]; [done|].
    simpl. by rewrite <- app_assoc.
  - done.
Qed.

(** The product of a slug after a run: the one it had, else that of the first
    record with that slug. *)
Lemma group_from_products rows c slug :
  dict_get slug (products (group_from c rows)) =
  match dict_get slug (products c) with
  | Some p => Some p
  | None => product_of <$> head (with_slug slug rows)
  end.
Proof.
  revert c. induction rows as [|r rows IH]; intros c.
  - simpl. by destruct (dict_get slug (products c)).
  - rewrite group_from_cons, IH, group_step_products. unfold with_slug.
    rewrite filter_cons.
    destruct (dict_get slug (products c)) as [p|]; [done|].
    by case_decide.
Qed.

Lemma group_transition_step c r c' :
  group_transition c r c' <-> c' = group_step c r.
Proof.
  split.
  - intros H. destruct H as [c r Hnone|c r p Hsome];
      unfold group_step; by rewrite ?Hnone, ?Hsome.
  - intros ->. unfold group_step.
    destruct (dict_get (product_slug r) (products c)) as [p|] eqn:E.
    + by eapply already_seen.
    + by apply first_seen.
Qed.

Lemma group_run_from c rows c' :
  group_run c rows c' <-> c' = group_from c rows.
Proof.
  split.
  - induction 1 as [c|c r c1 rows c2 Hstep Hrun IH]; [done|].
    apply group_transition_step in Hstep. subst. by rewrite group_from_cons.
  - intros ->. revert c. induction rows as [|r rows IH]; intros c.
    + apply run_done.
    + eapply run_row; [by apply group_transition_step | apply IH].
Qed.

End Group.

(** ** Sorting and extrema: structure *)

Section SortStructure.
Context {A : Type} (key : A -> float).

Lemma insert_by_perm x l : insert_by key x l ≡ₚ x :: l.
Proof.
  induction l as [|y l IH]; simpl; [done|].
  destruct (fltb (key y) (key x)); [|done].
  rewrite IH. apply Permutation_swap.
Qed.

Lemma py_sorted_perm l : py_sorted key l ≡ₚ l.
Proof.
  induction l as [|x l IH]; simpl; [done|].
  by rewrite insert_by_perm, IH.
Qed.

Lemma py_sorted_length l : length (py_sorted key l) = length l.
Proof. by rewrite py_sorted_perm. Qed.

Lemma py_sorted_cons x l :
  py_sorted key (x :: l) = insert_by key x (py_sorted key l).
Proof. reflexivity. Qed.

(** The head after an insertion: the old head when its key is strictly
    smaller, the inserted element otherwise. *)
Lemma insert_by_head x l :
  head (insert_by key x l) =
  Some match head l with
       | Some y => if fltb (key y) (key x) then y else x
       | None => x
       end.
Proof. destruct l as [|y l]; simpl; [done|]. by destruct (fltb _ _). Qed.

Lemma py_min_is_Some l : l <> [] -> is_Some (py_min key l).
Proof. destruct l; [done|]. by eexists. Qed.

End SortStructure.

Lemma py_max_is_Some l : l <> [] -> is_Some (py_max l).
Proof. destruct l; [done|]. by eexists. Qed.

Lemma render_index_aggregate_is_Some offs :
  offs <> [] -> is_Some (render_index_aggregate offs).
Proof.
  intros H. unfold render_index_aggregate.
  destruct (py_min_is_Some o_total offs H) as [m ->]. by eexists.
Qed.

Lemma render_product_aggregate_is_Some offs :
  offs <> [] -> is_Some (render_product_aggregate offs).
Proof.
  intros H. unfold render_product_aggregate.
  assert (Hs : py_sorted o_total offs <> []).
  { intros E. apply (f_equal length) in E. rewrite py_sorted_length in E.
    by destruct offs. }
  destruct (py_sorted o_total offs) as [|o l]; [done|]. simpl. by eexists.
Qed.

(** ** C3: first seen wins *)

(** C3. The product of a slug carries the category, name, brand, model, gtin,
    mpn and parsed specs of the first record of the feed with that slug; a
    record whose slug already has a product leaves [products] as it is and
    appends exactly one offer to that slug's list, leaving the other lists
    alone; a product once created is the same after any further records;
    and the offers of a slug are one per record with that slug. *)
Theorem first_seen_wins (rt : PyRuntime) (rows : list Item) (slug : pystr) :
  (forall first, head (with_slug slug rows) = Some first ->
     exists p, dict_get slug (products (group_by_product rows)) = Some p
       /\ p_slug p = slug /\ p_category p = category first
       /\ p_name p = product_name first /\ p_brand p = brand first
       /\ p_model p = model first /\ p_gtin p = gtin first
       /\ p_mpn p = mpn first /\ p_specs p = parse_specs (specs_json first))
  /\ (forall c r p, dict_get (product_slug r) (products c) = Some p ->
        products (group_step c r) = products c
        /\ offers (group_step c r) !! product_slug r
           = Some (default [] (offers c !! product_slug r) ++ [offer_of r])
        /\ forall other, other <> product_slug r ->
             offers (group_step c r) !! other = offers c !! other)
  /\ (forall p more,
        dict_get slug (products (group_by_product rows)) = Some p ->
        dict_get slug (products (group_by_product (rows ++ more))) = Some p)
  /\ default [] (offers (group_by_product rows) !! slug)
     = offer_of <$> with_slug slug rows.
Proof.
  split; [|split; [|split]].
  - intros first Hfirst. exists (product_of first). split.
    + unfold group_by_product. rewrite group_from_products. simpl.
      by rewrite Hfirst.
    + assert (Hin : first ∈ with_slug slug rows).
      { destruct (with_slug slug rows) as [|x l]; [done|].
        injection Hfirst as ->. left. }
      apply list_elem_of_filter in Hin as [Hs _]. by repeat split.
  - intros c r p Hp. split; [|split].
    + unfold group_step. simpl. by rewrite Hp.
    + rewrite group_step_offers. by case_decide.
    + intros other Hne. rewrite group_step_offers. by case_decide.
  - intros p more Hp. unfold group_by_product, group_from in *.
    rewrite foldl_app. fold (group_from empty_catalog rows).
    fold (group_from (group_from empty_catalog rows) more).
    rewrite group_from_products. unfold group_from. by rewrite Hp.
  - unfold group_by_product. rewrite group_from_offers. simpl.
    rewrite lookup_empty. by destruct (with_slug slug rows).
Qed.

(** ** C5: reconciliation is deterministic *)

(** C5. The loop of [group_by_product], read as a transition system, has
    exactly one run on a given sequence of records: a run exists, and any
    two runs end in the same catalog - the same products in the same order
    with the same fields, and the same offer lists. *)
Theorem reconcile_deterministic (rt : PyRuntime) (rows : list Item) :
  group_run empty_catalog rows (group_by_product rows)
  /\ forall c1 c2 : Catalog,
       group_run empty_catalog rows c1 -> group_run empty_catalog rows c2 ->
       c1 = c2 /\ products c1 = products c2 /\ offers c1 = offers c2.
Proof.
  split.
  - by apply group_run_from.
  - intros c1 c2 H1%group_run_from H2%group_run_from. by subst.
Qed.

(** ** C9: a product of the catalog has an offer *)

(** C9. Every slug that has a product in the catalog built by
    [group_by_product] has a non-empty offer list, so neither [min] in
    [render_index] nor [offs_sorted[0]] in [render_product] can fail on
    it. *)
Theorem catalog_products_have_offers (rt : PyRuntime) (rows : list Item)
    (slug : pystr) (p : Product) :
  dict_get slug (products (group_by_product rows)) = Some p ->
  exists offs, offers (group_by_product rows) !! slug = Some offs
    /\ offs <> []
    /\ is_Some (render_index_aggregate offs)
    /\ is_Some (render_product_aggregate offs).
Proof.
  unfold group_by_product. rewrite group_from_products, group_from_offers.
  simpl. rewrite lookup_empty. simpl.
  destruct (with_slug slug rows) as [|r l]; [done|]. intros _.
  exists (offer_of <$> r :: l).
  split; [done|]. split; [done|].
  split; [by apply render_index_aggregate_is_Some
         | by apply render_product_aggregate_is_Some].
Qed.

Lemma catalog_products_have_offers_witness :
  let records := (@normalize_rows Ref.runtime 0 bosch_feed).1 in
  let catalog := @group_by_product Ref.runtime records in
  exists p, dict_get (py "bosch-gsr-12") (products catalog) = Some p
    /\ exists offs, offers catalog !! py "bosch-gsr-12" = Some offs
         /\ offs <> []
         /\ is_Some (render_index_aggregate offs)
         /\ is_Some (render_product_aggregate offs).
Proof.
  cbv zeta.
  destruct (dict_get (py "bosch-gsr-12")
              (products (@group_by_product Ref.runtime
                           (@normalize_rows Ref.runtime 0 bosch_feed).1)))
    as [p|] eqn:E; [|vm_compute in E; discriminate].
  exists p. split; [reflexivity|].
  exact (catalog_products_have_offers Ref.runtime _ _ p E).
Defined.

(** ** C10: input order is kept *)

Lemma omap_id_sublist {B : Type} (l : list (option B)) :
  (Some <$> omap id l) `sublist_of` l.
Proof.
  induction l as [|[x|] l IH]; simpl.
  - constructor.
  - by apply sublist_skip.
  - by apply sublist_cons.
Qed.

Section Order.
Context {rt : PyRuntime}.

Lemma normalize_rows_each tick rows :
  (normalize_rows tick rows).1 = omap id (normalize_each tick rows).
Proof.
  revert tick. induction rows as [|r rows IH]; intros tick; [done|].
  rewrite normalize_rows_cons. simpl. rewrite IH.
  by destruct (normalize_row tick r).1.
Qed.

Lemma normalize_each_length tick rows :
  length (normalize_each tick rows) = length rows.
Proof.
  revert tick. induction rows as [|r rows IH]; intros tick; simpl; [done|].
  by rewrite IH.
Qed.

Lemma normalize_each_lookup tick rows i r :
  rows !! i = Some r ->
  exists tick', normalize_each tick rows !! i = Some (normalize_row tick' r).1.
Proof.
  revert tick i. induction rows as [|r0 rows IH]; intros tick i; [done|].
  destruct i as [|i]; simpl.
  - intros [= ->]. by exists tick.
  - apply IH.
Qed.

End Order.

(** C10. The records [normalize_rows] returns are the outcomes of the rows,
    one outcome per row in feed order, with the dropped rows left out and
    nothing reordered; and in the catalog built from them the offer list of
    every slug holds exactly one offer per record with that slug, in the
    order of those records (no list at all when there is no such record). *)
Theorem input_order_preserved (rt : PyRuntime) (tick : nat)
    (rows : list (gmap pystr pystr)) (slug : pystr) :
  let records := (normalize_rows tick rows).1 in
  records = omap id (normalize_each tick rows)
  /\ (Some <$> records) `sublist_of` normalize_each tick rows
  /\ length (normalize_each tick rows) = length rows
  /\ (forall i r, rows !! i = Some r ->
        exists tick', normalize_each tick rows !! i
                      = Some (normalize_row tick' r).1)
  /\ default [] (offers (group_by_product records) !! slug)
     = offer_of <$> with_slug slug records
  /\ (offers (group_by_product records) !! slug = None
      <-> with_slug slug records = []).
Proof.
  cbv zeta. split; [apply normalize_rows_each|].
  split; [rewrite normalize_rows_each; apply omap_id_sublist|].
  split; [apply normalize_each_length|].
  split; [apply normalize_each_lookup|].
  unfold group_by_product. rewrite group_from_offers. simpl.
  rewrite lookup_empty.
  destruct (with_slug slug (normalize_rows tick rows).1); by split.
Qed.

(** ** The order of binary64 values *)

Ltac compare_cases :=
  repeat match goal with
  | |- context [Z.compare ?a ?b] => destruct (Z.compare_spec a b)
  | H : context [Z.compare ?a ?b] |- _ => destruct (Z.compare_spec a b)
  | |- context [Pos.compare_cont Eq ?a ?b] =>
      change (Pos.compare_cont Eq a b) with (Pos.compare a b);
      destruct (Pos.compare_spec a b)
  | H : context [Pos.compare_cont Eq ?a ?b] |- _ =>
      change (Pos.compare_cont Eq a b) with (Pos.compare a b) in H;
      destruct (Pos.compare_spec a b)
  end.

(** Case analysis on the operands, then on the comparisons of exponents and
    mantissas. *)
Ltac float_order :=
  unfold fltb, fleb, SFltb, SFleb, SFcompare, is_nan in *;
  repeat match goal with
         | x : spec_float |- _ => destruct x as [[]|[]| |[] ? ?]
         end;
  simpl in *; try congruence; try reflexivity;
  compare_cases; simpl in *; subst; try congruence; try reflexivity; try lia.

Lemma fltb_trans x y z : fltb x y = true -> fltb y z = true -> fltb x z = true.
Proof. float_order. Qed.

Lemma fltb_fleb_trans x y z :
  fltb x y = true -> fleb y z = true -> fltb x z = true.
Proof. float_order. Qed.

Lemma fleb_trans x y z : fleb x y = true -> fleb y z = true -> fleb x z = true.
Proof. float_order. Qed.

Lemma fltb_fleb x y : fltb x y = true -> fleb x y = true.
Proof. float_order. Qed.

Lemma fleb_not_fltb x y : fleb x y = true -> fltb y x = false.
Proof. float_order. Qed.

(** Away from NaN the order is total. *)
Lemma not_fltb_fleb x y :
  is_nan x = false -> is_nan y = false -> fltb x y = false -> fleb y x = true.
Proof. float_order. Qed.

Lemma fleb_refl x : is_nan x = false -> fleb x x = true.
Proof. float_order. Qed.

(** ** Extrema of a list without NaN keys *)

Section Extrema.
Context {A : Type} (key : A -> float).

Abbreviation no_nan := (Forall (fun x => is_nan (key x) = false)).
Abbreviation all_above m := (Forall (fun x => fltb (key m) (key x) = true)).
Abbreviation none_below m := (Forall (fun x => fleb (key m) (key x) = true)).

(** The loop of [min] keeps the earliest element of smallest key: with [cur]
    such an element of the part already scanned, the result is one of the
    whole. *)
Lemma min_from_first_min l : forall before cur after,
  no_nan (before ++ cur :: after ++ l) ->
  all_above cur before -> none_below cur after ->
  exists before' after',
    before ++ cur :: after ++ l = before' ++ min_from key cur l :: after'
    /\ all_above (min_from key cur l) before'
    /\ none_below (min_from key cur l) after'.
Proof.
  induction l as [|x l IH]; intros before cur after Hnan Hb Ha.
  - exists before, after. by rewrite app_nil_r.
  - simpl. assert (Hnan' := Hnan).
    apply Forall_app in Hnan' as [_ Hnan'].
    apply Forall_cons in Hnan' as [Hcur Hnan'].
    apply Forall_app in Hnan' as [_ Hnan'].
    apply Forall_cons in Hnan' as [Hx _].
    destruct (fltb (key x) (key cur)) eqn:E.
    + destruct (IH (before ++ cur :: after) x []) as (b' & a' & Heq & Hb' & Ha').
      * by rewrite <- app_assoc.
      * apply Forall_app. split; [|constructor; [done|]].
        -- eapply Forall_impl; [exact Hb|]. simpl. intros y Hy.
           by eapply fltb_trans.
        -- eapply Forall_impl; [exact Ha|]. simpl. intros y Hy.
           by eapply fltb_fleb_trans.
      * constructor.
      * exists b', a'. split; [|done]. rewrite <- Heq.
        by rewrite <- app_assoc.
    + destruct (IH before cur (after ++ [x])) as (b' & a' & Heq & Hb' & Ha').
      * by rewrite <- app_assoc.
      * done.
      * apply Forall_app. split; [done|]. constructor; [|constructor].
        by apply not_fltb_fleb.
      * exists b', a'. split; [|done]. rewrite <- Heq.
        by rewrite <- app_assoc.
Qed.

(** The stable sort puts that same element first. *)
Lemma py_sorted_head_first_min before m after :
  all_above m before -> none_below m after ->
  head (py_sorted key (before ++ m :: after)) = Some m.
Proof.
  intros Hb Ha. induction Hb as [|x before Hx Hb IH]; simpl.
  - fold (py_sorted key after). rewrite insert_by_head.
    destruct (head (py_sorted key after)) as [y|] eqn:E; [|done].
    assert (Hy : y ∈ after).
    { rewrite <- (py_sorted_perm key after).
      destruct (py_sorted key after); [done|]. injection E as ->. left. }
    rewrite Forall_forall in Ha.
    by rewrite (fleb_not_fltb _ _ (Ha y Hy)).
  - fold (py_sorted key (before ++ m :: after)).
    by rewrite insert_by_head, IH, Hx.
Qed.

End Extrema.

(** The loop of [max] ends on an element that none exceeds. *)
Lemma max_from_greatest l : forall cur,
  Forall (fun x => is_nan x = false) (cur :: l) ->
  max_from cur l ∈ cur :: l
  /\ Forall (fun x => fleb x (max_from cur l) = true) (cur :: l).
Proof.
  induction l as [|x l IH]; intros cur Hnan.
  - apply Forall_cons in Hnan as [Hcur _]. simpl. split; [left|].
    constructor; [by apply fleb_refl | constructor].
  - apply Forall_cons in Hnan as [Hcur Hnan].
    assert (Hx := Hnan). apply Forall_cons in Hx as [Hx Hl]. simpl.
    destruct (fltb cur x) eqn:E.
    + destruct (IH x Hnan) as [Hin Hall]. split; [by right|].
      constructor; [|done]. apply Forall_cons in Hall as [Hxm _].
      eapply fleb_trans; [|exact Hxm]. by apply fltb_fleb.
    + destruct (IH cur) as [Hin Hall]; [by constructor|]. split.
      * apply elem_of_cons in Hin as [->|Hin]; [left | right; by right].
      * apply Forall_cons in Hall as [Hcm Hall].
        constructor; [done|]. constructor; [|done].
        eapply fleb_trans; [|exact Hcm]. by apply not_fltb_fleb.
Qed.

(** ** C4: lowest and highest total, count and cheapest offer *)

(** Both rows are accepted, the first total is NaN, and [min] in
    [render_index] answers that first offer although the other offer totals
    1.0: the reported lowest total is not at or below the totals. *)
Lemma nan_total_is_reported_lowest :
  let records := (@normalize_rows Ref.runtime 0 nan_shipping_feed).1 in
  let catalog := @group_by_product Ref.runtime records in
  exists offs agg other,
    offers catalog !! py "bosch-gsr-12" = Some offs
    /\ length offs = 2%nat
    /\ render_index_aggregate offs = Some agg
    /\ is_nan (o_total (min_offer agg)) = true
    /\ other ∈ offs
    /\ o_total other = amount "1"
    /\ fleb (o_total (min_offer agg)) (o_total other) = false.
Proof.
  cbv zeta. eexists _, _, _.
  split; [vm_compute; reflexivity|].
  split; [reflexivity|].
  split; [vm_compute; reflexivity|].
  split; [reflexivity|].
  split; [right; left|].
  split; reflexivity.
Qed.

(** C4, amended. For every non-empty offer list none of whose totals is NaN:
    there is an offer [cheapest] in it such that every offer before it has
    a strictly larger total and every offer after it a total at least as
    large - the earliest offer of minimum total; [min] in [render_index]
    and [offs_sorted[0]] in [render_product] are that offer, the low price
    is its total, the high price is a total of the list that no total
    exceeds, and both counts are the length of the list.  On totals
    [120.50, 99.99, 99.99] this gives 99.99, 120.50, 3 and the second
    offer. *)
Theorem aggregate_of_offers :
  (forall offs : list Offer,
     offs <> [] ->
     Forall (fun o => is_nan (o_total o) = false) offs ->
     exists before cheapest after hi,
       offs = before ++ cheapest :: after
       /\ Forall (fun o => fltb (o_total cheapest) (o_total o) = true) before
       /\ Forall (fun o => fleb (o_total cheapest) (o_total o) = true) after
       /\ hi ∈ o_total <$> offs
       /\ Forall (fun o => fleb (o_total o) hi = true) offs
       /\ render_index_aggregate offs
          = Some {| min_offer := cheapest; count := length offs |}
       /\ render_product_aggregate offs
          = Some {| first_offer := cheapest;
                    priceCurrency := o_currency cheapest;
                    lowPrice := o_total cheapest;
                    highPrice := hi;
                    offerCount := length offs |})
  /\ (forall o1 o2 o3 : Offer,
        o_total o1 = amount "120.50" -> o_total o2 = amount "99.99" ->
        o_total o3 = amount "99.99" ->
        render_index_aggregate [o1; o2; o3]
        = Some {| min_offer := o2; count := 3 |}
        /\ render_product_aggregate [o1; o2; o3]
           = Some {| first_offer := o2;
                     priceCurrency := o_currency o2;
                     lowPrice := amount "99.99";
                     highPrice := amount "120.50";
                     offerCount := 3 |}).
Proof.
  split.
  - intros offs Hne Hnan. destruct offs as [|o offs]; [done|].
    destruct (min_from_first_min o_total offs [] o []) as (b & a & Heq & Hb & Ha);
      [done | constructor | constructor |].
    simpl in Heq.
    pose proof (py_sorted_head_first_min o_total b _ a Hb Ha) as Hhead.
    rewrite <- Heq in Hhead.
    pose proof (py_sorted_perm o_total (o :: offs)) as Hperm.
    assert (Hnan_s : Forall (fun x => is_nan x = false)
                       (o_total <$> py_sorted o_total (o :: offs))).
    { apply Forall_fmap. by rewrite Hperm. }
    destruct (py_sorted o_total (o :: offs)) as [|s0 ss] eqn:Es; [done|].
    injection Hhead as ->.
    rewrite fmap_cons in Hnan_s.
    destruct (max_from_greatest (o_total <$> ss) _ Hnan_s) as [Hin Hall].
    exists b, (min_from o_total o offs), a,
      (max_from (o_total (min_from o_total o offs)) (o_total <$> ss)).
    split; [done|]. split; [done|]. split; [done|].
    split; [|split; [|split]].
    + rewrite <- Hperm, fmap_cons. exact Hin.
    + rewrite <- Hperm. rewrite <- fmap_cons in Hall.
      by apply Forall_fmap in Hall.
    + reflexivity.
    + unfold render_product_aggregate. rewrite Es. simpl.
      do 2 f_equal. apply (f_equal length) in Es.
      rewrite py_sorted_length in Es. simpl in Es. lia.
  - intros o1 o2 o3 H1 H2 H3.
    unfold render_index_aggregate, render_product_aggregate. simpl.
    rewrite H1, H2, H3.
    assert (fltb (amount "99.99") (amount "120.50") = true) as -> by reflexivity.
    assert (fltb (amount "99.99") (amount "99.99") = false) as -> by reflexivity.
    simpl. rewrite H1, H2, H3.
    assert (fltb (amount "99.99") (amount "120.50") = true) as -> by reflexivity.
    assert (fltb (amount "99.99") (amount "99.99") = false) as -> by reflexivity.
    split; [done|]. simpl. rewrite H1, H2, H3.
    assert (fltb (amount "99.99") (amount "99.99") = false) as -> by reflexivity.
    assert (fltb (amount "99.99") (amount "120.50") = true) as -> by reflexivity.
    done.
Qed.

Lemma aggregate_of_offers_witness :
  bosch_offers <> []
  /\ Forall (fun o => is_nan (o_total o) = false) bosch_offers
  /\ exists before cheapest after hi,
       bosch_offers = before ++ cheapest :: after
       /\ Forall (fun o => fltb (o_total cheapest) (o_total o) = true) before
       /\ Forall (fun o => fleb (o_total cheapest) (o_total o) = true) after
       /\ hi ∈ o_total <$> bosch_offers
       /\ Forall (fun o => fleb (o_total o) hi = true) bosch_offers
       /\ render_index_aggregate bosch_offers
          = Some {| min_offer := cheapest; count := length bosch_offers |}
       /\ render_product_aggregate bosch_offers
          = Some {| first_offer := cheapest;
                    priceCurrency := o_currency cheapest;
                    lowPrice := o_total cheapest;
                    highPrice := hi;
                    offerCount := length bosch_offers |}.
Proof.
  assert (Hne : bosch_offers <> []) by (vm_compute; discriminate).
  assert (Hnan : Forall (fun o => is_nan (o_total o) = false) bosch_offers)
    by (vm_compute; repeat constructor).
  split; [exact Hne|]. split; [exact Hnan|].
  exact (proj1 aggregate_of_offers bosch_offers Hne Hnan).
Defined.

(** ** C7: specs that are not a mapping *)

Section Specs.
Context {rt : PyRuntime}.

(** Text that [json.loads] rejects does not lose the row: with a merchant, a
    url and a price above 0 the row gives a record, and the product made from
    it has the empty mapping as specs. *)
Lemma rejected_specs_degrade tick r :
  json_loads (str_or (strip (row_get r "specs_json" "")) (py "{}")) = None ->
  strip (row_get r "merchant" "") <> [] ->
  strip (row_get r "url" "") <> [] ->
  fltb fzero (to_float (row_get r "price" "0")) = true ->
  exists item, (normalize_row tick r).1 = Some item
    /\ p_specs (product_of item) = JDict []
    /\ specs_items (p_specs (product_of item)) = Some [].
Proof.
  intros Hj Hm%truthy_true Hu%truthy_true Hp.
  exists (make_item tick r).1. split.
  - rewrite normalize_row_item, accepted_make_item. by rewrite Hm, Hu, Hp.
  - unfold product_of, parse_specs. simpl.
    rewrite make_item_specs_json, Hj. done.
Qed.

End Specs.

(** C7 at [list_specs_row]. The row is kept, but [json.loads] accepts the
    text, so the product carries the list [[1]] as specs, not the empty
    mapping, and line 119 of [render_product] fails on it. *)
Theorem list_specs_are_not_degraded :
  exists item p,
    (@normalize_rows Ref.runtime 0 [list_specs_row]).1 = [item]
    /\ dict_get (py "bosch-gsr-12")
         (products (@group_by_product Ref.runtime [item])) = Some p
    /\ p_specs p = JList [JInt 1]
    /\ p_specs p <> JDict []
    /\ specs_items (p_specs p) = None.
Proof.
  eexists _, _. split; [vm_compute; reflexivity|].
  split; [vm_compute; reflexivity|].
  split; [reflexivity|]. split; [discriminate | reflexivity].
Qed.

(** ** Further instances *)

Lemma slug_precedence_witness :
  product_slug (@make_item Ref.runtime 0 (bosch_row "alpha" "4500" "120")).1
  = py "bosch-gsr-12"
  /\ product_slug (@make_item Ref.runtime 0 brand_only_row).1
     = @slugify Ref.runtime (@brand_model brand_only_row).
Proof.
  split.
  - destruct (slug_precedence Ref.runtime 0 (bosch_row "alpha" "4500" "120"))
      as (Hexplicit & _).
    apply Hexplicit. vm_compute. discriminate.
  - destruct (slug_precedence Ref.runtime 0 brand_only_row)
      as (_ & Hbrand & _).
    apply Hbrand; [reflexivity | vm_compute; discriminate].
Defined.

Lemma first_seen_wins_witness :
  let records := (@normalize_rows Ref.runtime 0 bosch_feed).1 in
  exists first p,
    head (with_slug (py "bosch-gsr-12") records) = Some first
    /\ merchant first = py "alpha"
    /\ dict_get (py "bosch-gsr-12")
         (products (@group_by_product Ref.runtime records)) = Some p
    /\ p_brand p = brand first.
Proof.
  cbv zeta.
  destruct (head (with_slug (py "bosch-gsr-12")
                    (@normalize_rows Ref.runtime 0 bosch_feed).1))
    as [first|] eqn:E; [|vm_compute in E; discriminate].
  destruct (proj1 (first_seen_wins Ref.runtime
                     (@normalize_rows Ref.runtime 0 bosch_feed).1
                     (py "bosch-gsr-12")) first E)
    as (p & Hp & _ & _ & _ & Hbrand & _).
  exists first, p. split; [reflexivity|]. split; [|by split].
  vm_compute in E. injection E as <-. reflexivity.
Defined.

Lemma reconcile_deterministic_witness :
  let records := (@normalize_rows Ref.runtime 0 bosch_feed).1 in
  @group_run Ref.runtime empty_catalog records
    (@group_by_product Ref.runtime records)
  /\ forall c, @group_run Ref.runtime empty_catalog records c ->
       c = @group_by_product Ref.runtime records.
Proof.
  cbv zeta.
  destruct (reconcile_deterministic Ref.runtime
              (@normalize_rows Ref.runtime 0 bosch_feed).1) as [Hrun Hdet].
  split; [exact Hrun|].
  intros c Hc. by destruct (Hdet c _ Hc Hrun).
Defined.

(** The end-to-end scenario: of the three rows of [bosch_feed] the one
    without a price is dropped; the catalog has the single product
    "bosch-gsr-12" with the two offers of "alpha" and "gamma", whose totals
    are 4620 and 4399. *)
Example bosch_feed_catalog :
  let records := (@normalize_rows Ref.runtime 0 bosch_feed).1 in
  let catalog := @group_by_product Ref.runtime records in
  (products catalog).*1 = [py "bosch-gsr-12"]
  /\ o_merchant <$> bosch_offers = [py "alpha"; py "gamma"]
  /\ o_total <$> bosch_offers = [amount "4620"; amount "4399"]
  /\ (lowPrice <$> render_product_aggregate bosch_offers) = Some (amount "4399").
Proof. cbv zeta. repeat split; vm_compute; reflexivity. Qed.

(** * Further properties of the code *)

(** ** The shape of a slug *)

Lemma rstrip_by_last p s c : last (rstrip_by p s) = Some c -> p c = false.
Proof.
  revert c. induction s as [|d s IH]; intros c; simpl; [done|].
  destruct (rstrip_by p s) as [|e t] eqn:E.
  - destruct (p d) eqn:Ed; simpl; [done|]. by intros [= <-].
  - intros H. apply IH. by destruct t.
Qed.

Lemma rstrip_by_fixed p s :
  (forall c, last s = Some c -> p c = false) -> rstrip_by p s = s.
Proof.
  induction s as [|d s IH]; intros H; simpl; [done|].
  destruct s as [|e s].
  - simpl. by rewrite (H d eq_refl).
  - rewrite IH; [done|]. intros c Hc. apply H. by rewrite last_cons, Hc.
Qed.

Lemma collapsed_lookup s :
  collapsed s = true <->
  forall i, s !! i = Some hyphen -> s !! S i <> Some hyphen.
Proof.
  induction s as [|c s IH]; [by split|].
  destruct s as [|d s]; [split; [by intros _ [|[|i]] | done]|].
  rewrite collapsed_cons, andb_true_iff, IH. split.
  - intros [Hcd Hs] [|i]; simpl.
    + intros [= ->] [= ->]. by vm_compute in Hcd.
    + apply Hs.
  - intros H. split.
    + destruct (is_hyphen c) eqn:Ec, (is_hyphen d) eqn:Ed; try done.
      apply N.eqb_eq in Ec as ->. apply N.eqb_eq in Ed as ->.
      by destruct (H 0%nat eq_refl).
    + intros i. apply (H (S i)).
Qed.

Lemma slug_char_bounds c : slug_char c = true -> 45 <= c <= 122.
Proof.
  unfold slug_char, is_hyphen, hyphen. intros H.
  destruct (N.leb_spec 97 c), (N.leb_spec c 122), (N.leb_spec 48 c),
    (N.leb_spec c 57), (N.eqb_spec c 45); simpl in H; try discriminate; lia.
Qed.

Lemma slug_char_not_whitespace c : slug_char c = true -> is_space c = false.
Proof.
  intros H%slug_char_bounds. unfold is_space.
  assert ((c <=? 13) = false) as -> by (apply N.leb_gt; lia).
  assert ((c <=? 32) = false) as -> by (apply N.leb_gt; lia).
  assert ((8192 <=? c) = false) as -> by (apply N.leb_gt; lia).
  rewrite !andb_false_r. simpl.
  repeat match goal with
         | |- context [N.eqb c ?k] =>
             assert (N.eqb c k = false) as -> by (apply N.eqb_neq; lia)
         end.
  reflexivity.
Qed.

Lemma strip_by_no_match p s :
  Forall (fun c => p c = false) s -> strip_by p s = s.
Proof.
  intros H. unfold strip_by. rewrite lstrip_by_fixed.
  - apply rstrip_by_fixed. intros c Hc.
    rewrite Forall_forall in H. apply H.
    rewrite last_Some in Hc. destruct Hc as [l' ->].
    apply elem_of_app. right. left.
  - destruct H; done.
Qed.

Lemma slug_normal_product : slug_normal (py "product").
Proof.
  split; [done|]. split; [by repeat constructor|].
  split; [done|]. split; [done|]. by apply collapsed_lookup.
Qed.

Section SlugShape.
Context {rt : PyRuntime}.

Lemma slug_core_collapsed text : collapsed (slug_core text) = true.
Proof.
  unfold slug_core, strip_by.
  apply rstrip_by_collapsed, lstrip_by_collapsed, collapse_collapsed.
Qed.

Lemma slug_core_normal text : slug_core text <> [] -> slug_normal (slug_core text).
Proof.
  intros Hne. split; [done|]. split; [apply slug_core_slug_text|].
  split; [|split].
  - pose proof (strip_by_lstrip is_hyphen
      (re_sub_plus is_hyphen (py "-")
         (re_sub_plus (fun c => negb (slug_char c)) (py "-")
            (str_replace 32 hyphen text)))) as Hl.
    fold (slug_core text) in Hl.
    pose proof (lstrip_by_head is_hyphen (slug_core text)) as Hh.
    rewrite Hl in Hh. destruct (slug_core text) as [|c t]; [done|].
    simpl. intros [= ->]. done.
  - intros Hlast. unfold slug_core, strip_by in Hlast.
    by apply rstrip_by_last in Hlast.
  - apply collapsed_lookup, slug_core_collapsed.
Qed.

Lemma slug_normal_core_fixed s : slug_normal s -> slug_core s = s.
Proof.
  intros (Hne & Htext & Hhead & Hlast & Hrun).
  unfold slug_core. rewrite (str_replace_slug_text _ Htext).
  unfold re_sub_plus.
  rewrite (re_sub_run_no_match (fun c => negb (slug_char c))).
  2:{ eapply Forall_impl; [exact Htext|]. simpl. by intros c ->. }
  rewrite collapse_fixed; [| by apply collapsed_lookup | discriminate].
  unfold strip_by. rewrite lstrip_by_fixed.
  - apply rstrip_by_fixed. intros c Hc.
    destruct (is_hyphen c) eqn:E; [|done].
    apply N.eqb_eq in E as ->. done.
  - destruct s as [|c s]; [done|].
    destruct (is_hyphen c) eqn:E; [|done].
    apply N.eqb_eq in E as ->. done.
Qed.

End SlugShape.

(** X1. Whatever the text, the result of [slugify] is not empty, consists of
    characters of [a-z0-9-] only, neither starts nor ends with a hyphen and
    has no two hyphens in a row. *)
Theorem slugify_normal_form (rt : PyRuntime) (text : pystr) :
  slug_normal (slugify text).
Proof.
  unfold slugify, str_or.
  destruct (truthy (slug_core (str_lower text))) eqn:E.
  - apply slug_core_normal. by apply truthy_true.
  - apply slug_normal_product.
Qed.

(** X2. When [str.lower] leaves text over [a-z0-9-] alone, the texts that
    [slugify] returns unchanged are exactly the texts in that form: a slug
    that is already clean is kept as it is, and nothing else is. *)
Theorem slugify_fixed_points (rt : PyRuntime) (text : pystr) :
  lower_fixes_slug_text rt ->
  slugify text = text <-> slug_normal text.
Proof.
  intros Hlow. split.
  - intros <-. apply slugify_normal_form.
  - intros Hn. unfold slugify.
    rewrite (Hlow text); [|by destruct Hn as (_ & ? & _)].
    rewrite (slug_normal_core_fixed _ Hn). unfold str_or.
    destruct Hn as [Hne _]. by destruct text.
Qed.

Lemma slugify_fixed_points_witness :
  lower_fixes_slug_text Ref.runtime
  /\ (@slugify Ref.runtime (py "bosch-gsr-12") = py "bosch-gsr-12"
      <-> slug_normal (py "bosch-gsr-12")).
Proof.
  split; [exact ref_lower_fixes_slug_text|].
  exact (slugify_fixed_points Ref.runtime (py "bosch-gsr-12")
           ref_lower_fixes_slug_text).
Defined.

(** ** Amount text *)

Lemma lstrip_by_app_all p ws s :
  Forall (fun c => p c = true) ws -> lstrip_by p (ws ++ s) = lstrip_by p s.
Proof. induction 1 as [|c ws Hc Hws IH]; simpl; [done|]. by rewrite Hc. Qed.

Lemma rstrip_by_app_all p s ws :
  Forall (fun c => p c = true) ws -> rstrip_by p (s ++ ws) = rstrip_by p s.
Proof.
  intros Hws. induction s as [|c s IH]; simpl.
  - by apply rstrip_by_nil.
  - by rewrite IH.
Qed.

Lemma lstrip_by_app_keep p s t :
  lstrip_by p s <> [] -> lstrip_by p (s ++ t) = lstrip_by p s ++ t.
Proof.
  induction s as [|c s IH]; simpl; [done|].
  destruct (p c); [exact IH | done].
Qed.

(** Characters around a text that are all stripped do not change what the
    strip leaves. *)
Lemma strip_by_padding p ws s ws' :
  Forall (fun c => p c = true) ws -> Forall (fun c => p c = true) ws' ->
  strip_by p (ws ++ s ++ ws') = strip_by p s.
Proof.
  intros Hws Hws'. unfold strip_by. rewrite lstrip_by_app_all; [|done].
  destruct (lstrip_by p s) as [|c t] eqn:E.
  - apply lstrip_by_nil in E. rewrite (lstrip_by_all p (s ++ ws')); [done|].
    apply Forall_app. by split.
  - rewrite lstrip_by_app_keep; [|by rewrite E]. rewrite E.
    by apply rstrip_by_app_all.
Qed.

Lemma str_replace_app a b s t :
  str_replace a b (s ++ t) = str_replace a b s ++ str_replace a b t.
Proof. unfold str_replace. apply fmap_app. Qed.

Lemma str_replace_absent a b s :
  Forall (fun c => c <> a) s -> str_replace a b s = s.
Proof.
  unfold str_replace. induction 1 as [|c s Hc Hs IH]; [done|].
  rewrite fmap_cons, IH. by destruct (N.eqb_spec c a).
Qed.

Lemma str_replace_idemp a b s :
  a <> b -> str_replace a b (str_replace a b s) = str_replace a b s.
Proof.
  intros Hab. apply str_replace_absent. unfold str_replace.
  apply Forall_fmap, Forall_forall. intros c _. simpl.
  destruct (N.eqb_spec c a); congruence.
Qed.

(** X3. [to_float] reads a comma as a decimal point and ignores white space
    around the text: padding the text with white space, or writing its commas
    as points, gives the same amount. *)
Theorem to_float_separator_and_padding (rt : PyRuntime) (text ws ws' : pystr) :
  Forall (fun c => is_space c = true) ws ->
  Forall (fun c => is_space c = true) ws' ->
  to_float (ws ++ text ++ ws') = to_float text
  /\ to_float (str_replace 44 46 text) = to_float text.
Proof.
  intros Hws Hws'. unfold to_float. split.
  - rewrite !str_replace_app.
    rewrite (str_replace_absent 44 46 ws), (str_replace_absent 44 46 ws').
    + unfold strip. by rewrite strip_by_padding.
    + eapply Forall_impl; [exact Hws'|]. simpl. by intros c Hc ->.
    + eapply Forall_impl; [exact Hws|]. simpl. by intros c Hc ->.
  - by rewrite str_replace_idemp.
Qed.

Lemma to_float_separator_and_padding_witness :
  Forall (fun c => is_space c = true) (py "  ")
  /\ Forall (fun c => is_space c = true) [9; 10]
  /\ @to_float Ref.runtime (py "  " ++ py "12,5" ++ [9; 10])
     = @to_float Ref.runtime (py "12,5")
  /\ @to_float Ref.runtime (py "12.5") = @to_float Ref.runtime (py "12,5").
Proof.
  assert (H1 : Forall (fun c => is_space c = true) (py "  "))
    by (by repeat constructor).
  assert (H2 : Forall (fun c => is_space c = true) [9; 10])
    by (by repeat constructor).
  split; [exact H1|]. split; [exact H2|].
  exact (to_float_separator_and_padding Ref.runtime (py "12,5") _ _ H1 H2).
Defined.

(** ** Which rows are kept, and what a record holds *)

(** X4. A row gives a record exactly when its merchant and url are not blank
    and its price reads above 0: the test on the slug in line 61 never
    rejects a row, since a slug is always found. *)
Theorem row_kept_iff (rt : PyRuntime) (tick : nat) (r : gmap pystr pystr) :
  is_Some (normalize_row tick r).1 <->
  strip (row_get r "merchant" "") <> []
  /\ strip (row_get r "url" "") <> []
  /\ fltb fzero (to_float (row_get r "price" "0")) = true.
Proof.
  rewrite normalize_row_item, accepted_make_item, <- !truthy_true.
  destruct (truthy (strip (row_get r "merchant" ""))),
    (fltb fzero (to_float (row_get r "price" "0"))),
    (truthy (strip (row_get r "url" ""))); simpl;
    split; try (intros [? ?]; done); try (intros (? & ? & ?); done);
    by (intros _; eauto).
Qed.

Section RecordFields.
Context {rt : PyRuntime}.

Lemma strip_strip s : strip (strip s) = strip s.
Proof. apply strip_by_idemp. Qed.

Lemma strip_slugify text : strip (slugify text) = slugify text.
Proof.
  apply strip_by_no_match.
  eapply Forall_impl; [apply slugify_slug_text|].
  intros c. apply slug_char_not_whitespace.
Qed.

Lemma make_item_trimmed tick r :
  let item := (make_item tick r).1 in
  strip (category item) = category item
  /\ strip (product_slug item) = product_slug item
  /\ strip (product_name item) = product_name item
  /\ strip (brand item) = brand item
  /\ strip (model item) = model item
  /\ strip (gtin item) = gtin item
  /\ strip (mpn item) = mpn item
  /\ strip (specs_json item) = specs_json item
  /\ strip (merchant item) = merchant item
  /\ strip (currency item) = currency item
  /\ strip (url item) = url item
  /\ strip (availability item) = availability item.
Proof.
  cbv zeta. unfold make_item.
  destruct (truthy (strip (row_get r "updated_at" ""))); simpl;
    unfold str_or, brand_model;
    repeat split; try apply strip_strip;
    repeat match goal with
           | |- context [if truthy ?s then _ else _] => destruct (truthy s)
           end; try apply strip_strip; try apply strip_slugify; done.
Qed.

Lemma make_item_product_name tick r :
  product_name (make_item tick r).1 =
  str_or (strip (row_get r "product_name" "")) (brand_model r).
Proof. unfold make_item. by destruct (truthy _). Qed.

Lemma make_item_updated_at tick r :
  updated_at (make_item tick r).1 =
  (if truthy (strip (row_get r "updated_at" ""))
   then strip (row_get r "updated_at" "")
   else utcnow_isoformat tick ++ py "Z").
Proof. unfold make_item. by destruct (truthy _). Qed.

Lemma make_item_tick tick r :
  (make_item tick r).2 =
  (if truthy (strip (row_get r "updated_at" "")) then tick else S tick).
Proof. unfold make_item. by destruct (truthy _). Qed.

End RecordFields.

(** X5. Every text field of a record other than the time stamp is trimmed:
    category, slug, name, brand, model, gtin, mpn, specs text, merchant,
    currency, url and availability neither start nor end with white
    space. *)
Theorem record_fields_trimmed (rt : PyRuntime) (tick : nat)
    (rows : list (gmap pystr pystr)) (item : Item) :
  item ∈ (normalize_rows tick rows).1 ->
  strip (category item) = category item
  /\ strip (product_slug item) = product_slug item
  /\ strip (product_name item) = product_name item
  /\ strip (brand item) = brand item
  /\ strip (model item) = model item
  /\ strip (gtin item) = gtin item
  /\ strip (mpn item) = mpn item
  /\ strip (specs_json item) = specs_json item
  /\ strip (merchant item) = merchant item
  /\ strip (currency item) = currency item
  /\ strip (url item) = url item
  /\ strip (availability item) = availability item.
Proof.
  intros (r & tick' & _ & ->)%normalize_rows_source.
  apply make_item_trimmed.
Qed.

Lemma record_fields_trimmed_witness :
  exists item,
    item ∈ (@normalize_rows Ref.runtime 0 bosch_feed).1
    /\ strip (product_slug item) = product_slug item
    /\ strip (merchant item) = merchant item.
Proof.
  eexists. split; [vm_compute; left|].
  destruct (record_fields_trimmed Ref.runtime 0 bosch_feed _
              ltac:(vm_compute; left))
    as (_ & Hslug & _ & _ & _ & _ & _ & _ & Hm & _).
  split; [exact Hslug | exact Hm].
Defined.

(** X6. The name of a record is empty exactly when the row's name, brand and
    model are all blank; such a row is still kept when it has a merchant, a
    url and a price above 0, so a record - and the product made from it -
    can have no name. *)
Theorem record_name_empty_iff (rt : PyRuntime) (tick : nat) (r : gmap pystr pystr) :
  let blank_names :=
    strip (row_get r "product_name" "") = []
    /\ strip (row_get r "brand" "") = []
    /\ strip (row_get r "model" "") = [] in
  (product_name (make_item tick r).1 = [] <-> blank_names)
  /\ (blank_names ->
      strip (row_get r "merchant" "") <> [] ->
      strip (row_get r "url" "") <> [] ->
      fltb fzero (to_float (row_get r "price" "0")) = true ->
      exists item, (normalize_row tick r).1 = Some item
        /\ product_name item = [] /\ p_name (product_of item) = []).
Proof.
  cbv zeta.
  assert (Hiff : product_name (make_item tick r).1 = [] <->
                 strip (row_get r "product_name" "") = []
                 /\ strip (row_get r "brand" "") = []
                 /\ strip (row_get r "model" "") = []).
  { rewrite make_item_product_name. unfold str_or.
    pose proof (brand_model_truthy r) as Hbm.
    destruct (truthy (strip (row_get r "product_name" ""))) eqn:En.
    - apply truthy_true in En. split; [done | by intros [? _]].
    - apply truthy_false in En. rewrite En.
      destruct (truthy (brand_model r)) eqn:Eb.
      + apply truthy_true in Eb as Eb'. split; [done|].
        intros (_ & Hb & Hm). destruct (proj1 Hbm eq_refl); done.
      + apply truthy_false in Eb as Eb'. split; [|done]. intros _.
        split; [done|].
        destruct (decide (strip (row_get r "brand" "") = [])) as [Hb|Hb];
          destruct (decide (strip (row_get r "model" "") = [])) as [Hm|Hm];
          try done; exfalso;
          assert (false = true) by (apply Hbm; tauto); done. }
  split; [exact Hiff|].
  intros Hblank Hm%truthy_true Hu%truthy_true Hp.
  exists (make_item tick r).1. split.
  - rewrite normalize_row_item, accepted_make_item. by rewrite Hm, Hu, Hp.
  - split; [by apply Hiff | simpl; by apply Hiff].
Qed.

Lemma record_name_empty_iff_witness :
  exists item,
    (@normalize_row Ref.runtime 0 nameless_row).1 = Some item
    /\ product_name item = [] /\ p_name (@product_of Ref.runtime item) = [].
Proof.
  apply (proj2 (record_name_empty_iff Ref.runtime 0 nameless_row));
    [by vm_compute | by vm_compute | by vm_compute | by vm_compute].
Defined.

(** ** The clock *)

(** X7. [normalize_rows] reads the clock once for every row whose
    [updated_at] is blank, whether the row is kept or dropped, and for no
    other row; the time stamp of a record is never empty. *)
Theorem clock_read_per_unstamped_row (rt : PyRuntime) (tick : nat)
    (rows : list (gmap pystr pystr)) :
  (normalize_rows tick rows).2
  = (tick + length (filter (fun r => strip (row_get r "updated_at" "") = [])
                           rows))%nat
  /\ forall item, item ∈ (normalize_rows tick rows).1 -> updated_at item <> [].
Proof.
  split.
  - revert tick. induction rows as [|r rows IH]; intros tick.
    + rewrite normalize_rows_nil. simpl. lia.
    + rewrite normalize_rows_cons. simpl.
      rewrite IH, normalize_row_tick, make_item_tick, filter_cons.
      destruct (truthy (strip (row_get r "updated_at" ""))) eqn:E.
      * apply truthy_true in E. by rewrite decide_False.
      * apply truthy_false in E. rewrite decide_True; [|done]. simpl. lia.
  - intros item (r & tick' & _ & ->)%normalize_rows_source.
    rewrite make_item_updated_at.
    destruct (truthy (strip (row_get r "updated_at" ""))) eqn:E.
    + by apply truthy_true.
    + intros H. apply app_eq_nil in H as [_ H]. discriminate.
Qed.

(** X8. A feed in which every row carries a time stamp is normalized without
    the clock: the records are the same at any clock state and under any
    two runtimes that agree on [str.lower] and [float], and the clock is
    left where it was. *)
Theorem stamped_feed_ignores_clock (rt1 rt2 : PyRuntime) (tick1 tick2 : nat)
    (rows : list (gmap pystr pystr)) :
  (forall s, @str_lower rt1 s = @str_lower rt2 s) ->
  (forall s, @float_of_str rt1 s = @float_of_str rt2 s) ->
  Forall (fun r => strip (row_get r "updated_at" "") <> []) rows ->
  (@normalize_rows rt1 tick1 rows).1 = (@normalize_rows rt2 tick2 rows).1
  /\ (@normalize_rows rt1 tick1 rows).2 = tick1.
Proof.
  intros Hlow Hfloat Hrows. revert tick1 tick2.
  induction Hrows as [|r rows Hr Hrows IH]; intros tick1 tick2; [done|].
  apply truthy_true in Hr.
  assert (Hitem : @make_item rt1 tick1 r = (( @make_item rt2 tick2 r).1, tick1)).
  { unfold make_item. rewrite Hr. simpl. unfold to_float, slugify.
    by rewrite !Hfloat, !Hlow. }
  assert (Htick2 : (@make_item rt2 tick2 r).2 = tick2).
  { unfold make_item. by rewrite Hr. }
  rewrite !normalize_rows_cons. simpl.
  rewrite !normalize_row_tick, !normalize_row_item, Hitem, Htick2. simpl.
  destruct (IH tick1 tick2) as [-> ->]. done.
Qed.

Lemma stamped_feed_ignores_clock_witness :
  let row := <[ py "updated_at" := py "2024-05-01T10:00:00Z" ]>
               (bosch_row "alpha" "4500" "120") in
  Forall (fun r => strip (row_get r "updated_at" "") <> []) [row]
  /\ (@normalize_rows Ref.runtime 0 [row]).1
     = (@normalize_rows Ref.runtime 7 [row]).1.
Proof.
  cbv zeta.
  assert (H : Forall (fun r => strip (row_get r "updated_at" "") <> [])
                [<[ py "updated_at" := py "2024-05-01T10:00:00Z" ]>
                   (bosch_row "alpha" "4500" "120")]).
  { constructor; [|constructor]. vm_compute. discriminate. }
  split; [exact H|].
  exact (proj1 (stamped_feed_ignores_clock Ref.runtime Ref.runtime 0 7 _
                  (fun _ => eq_refl) (fun _ => eq_refl) H)).
Defined.

(** ** The catalog as a whole *)

Lemma dict_get_None_keys {V : Type} (k : pystr) (d : list (pystr * V)) :
  dict_get k d = None <-> k ∉ d.*1.
Proof.
  induction d as [|[k' v] d IH]; simpl.
  - split; [intros _; apply not_elem_of_nil | done].
  - rewrite not_elem_of_cons. case_decide; [split; [done | by intros [? _]]|].
    rewrite IH. split; [by split | by intros [_ ?]].
Qed.

Lemma first_seen_from_elem (seen slugs : list pystr) (s : pystr) :
  s ∈ foldl (fun (seen : list pystr) s =>
               if decide (s ∈ seen) then seen else seen ++ [s]) seen slugs
  <-> s ∈ seen \/ s ∈ slugs.
Proof.
  revert seen. induction slugs as [|x slugs IH]; intros seen; simpl.
  - rewrite elem_of_nil. tauto.
  - rewrite IH, elem_of_cons. case_decide as Hx.
    + split; [tauto|]. intros [?|[->|?]]; tauto.
    + rewrite elem_of_app, list_elem_of_singleton. tauto.
Qed.

Lemma first_seen_from_NoDup (seen slugs : list pystr) :
  NoDup seen ->
  NoDup (foldl (fun (seen : list pystr) s =>
                  if decide (s ∈ seen) then seen else seen ++ [s]) seen slugs).
Proof.
  revert seen. induction slugs as [|x slugs IH]; intros seen Hnd; [done|].
  simpl. apply IH. case_decide as Hx; [done|].
  apply NoDup_app. split; [done|]. split; [|apply NoDup_singleton].
  intros y Hy ->%list_elem_of_singleton. done.
Qed.

Section CatalogShape.
Context {rt : PyRuntime}.

Lemma group_step_keys c r :
  (products (group_step c r)).*1 =
  (if decide (product_slug r ∈ (products c).*1) then (products c).*1
   else (products c).*1 ++ [product_slug r]).
Proof.
  unfold group_step. simpl.
  destruct (dict_get (product_slug r) (products c)) as [p|] eqn:E.
  - rewrite decide_True; [done|].
    destruct (decide (product_slug r ∈ (products c).*1)) as [|Hn]; [done|].
    apply dict_get_None_keys in Hn. congruence.
  - rewrite decide_False; [|by apply dict_get_None_keys].
    rewrite dict_set_new; [|done]. by rewrite fmap_app.
Qed.

Lemma group_from_keys rows c :
  (products (group_from c rows)).*1 =
  foldl (fun (seen : list pystr) s =>
           if decide (s ∈ seen) then seen else seen ++ [s])
    (products c).*1 (product_slug <$> rows).
Proof.
  revert c. induction rows as [|r rows IH]; intros c; [done|].
  rewrite group_from_cons, IH, group_step_keys. done.
Qed.

Lemma group_from_slug_fields rows c :
  Forall (fun kv => p_slug kv.2 = kv.1) (products c) ->
  Forall (fun kv => p_slug kv.2 = kv.1) (products (group_from c rows)).
Proof.
  revert c. induction rows as [|r rows IH]; intros c Hc; [done|].
  rewrite group_from_cons. apply IH. unfold group_step. simpl.
  destruct (dict_get (product_slug r) (products c)) as [p|] eqn:E; [done|].
  rewrite dict_set_new; [|done]. apply Forall_app. split; [done|].
  by constructor.
Qed.

Lemma group_by_product_offers rows slug :
  default [] (offers (group_by_product rows) !! slug)
  = offer_of <$> with_slug slug rows.
Proof.
  unfold group_by_product. rewrite group_from_offers. simpl.
  rewrite lookup_empty. by destruct (with_slug slug rows).
Qed.

Lemma group_by_product_offers_None rows slug :
  offers (group_by_product rows) !! slug = None <-> with_slug slug rows = [].
Proof.
  unfold group_by_product. rewrite group_from_offers. simpl.
  rewrite lookup_empty. by destruct (with_slug slug rows).
Qed.

Lemma group_by_product_product rows slug :
  dict_get slug (products (group_by_product rows))
  = product_of <$> head (with_slug slug rows).
Proof. unfold group_by_product. by rewrite group_from_products. Qed.

Lemma with_slug_nil slug (rows : list Item) :
  with_slug slug rows = [] <-> slug ∉ product_slug <$> rows.
Proof.
  unfold with_slug. induction rows as [|r rows IH].
  - split; [intros _; apply not_elem_of_nil | done].
  - rewrite filter_cons, fmap_cons, not_elem_of_cons. case_decide as Hs.
    + split; [done | intros [Hne _]; by destruct Hne].
    + rewrite IH. split; [intros ?; split; [by intros -> | done]
                         | by intros [_ ?]].
Qed.

Lemma products_keys_aux rows :
  NoDup (products (group_by_product rows)).*1
  /\ Forall (fun r => product_slug r ∈ (products (group_by_product rows)).*1)
       rows.
Proof.
  unfold group_by_product. rewrite group_from_keys. split.
  - apply first_seen_from_NoDup. constructor.
  - apply Forall_forall. intros r Hr. apply first_seen_from_elem. right.
    apply list_elem_of_fmap. by exists r.
Qed.

End CatalogShape.

(** X9. The products of the catalog are keyed by the slugs of the records,
    each slug once, in the order in which the slugs first occur in the feed
    ([build] writes the product pages and the sitemap in that order), and
    every product stores its own key as its slug. *)
Theorem products_in_first_seen_order (rt : PyRuntime) (rows : list Item) :
  let keys := (products (group_by_product rows)).*1 in
  keys = first_seen_slugs (product_slug <$> rows)
  /\ NoDup keys
  /\ (forall slug, slug ∈ keys <-> exists r, r ∈ rows /\ product_slug r = slug)
  /\ Forall (fun kv => p_slug kv.2 = kv.1) (products (group_by_product rows)).
Proof.
  cbv zeta.
  assert (Hkeys : (products (group_by_product rows)).*1
                  = first_seen_slugs (product_slug <$> rows)).
  { unfold group_by_product. by rewrite group_from_keys. }
  rewrite Hkeys. split; [done|]. split; [|split].
  - apply first_seen_from_NoDup. constructor.
  - intros slug. unfold first_seen_slugs. rewrite first_seen_from_elem.
    rewrite elem_of_nil, list_elem_of_fmap. split.
    + intros [[]|(r & -> & Hr)]. by exists r.
    + intros (r & Hr & <-). right. by exists r.
  - unfold group_by_product. apply group_from_slug_fields. constructor.
Qed.

(** X10. The catalog holds an offer list for exactly the slugs that have a
    product: no product is without its list and no list without its
    product. *)
Theorem offers_keyed_like_products (rt : PyRuntime) (rows : list Item) :
  dom (offers (group_by_product rows))
  = list_to_set (products (group_by_product rows)).*1.
Proof.
  apply set_eq. intros slug.
  rewrite elem_of_dom, elem_of_list_to_set.
  rewrite <- not_eq_None_Some, group_by_product_offers_None, with_slug_nil.
  assert (Hk : slug ∈ (products (group_by_product rows)).*1
               <-> slug ∈ product_slug <$> rows).
  { unfold group_by_product. rewrite group_from_keys, first_seen_from_elem.
    simpl. rewrite elem_of_nil. tauto. }
  rewrite Hk. split; [|tauto].
  intros H. by destruct (decide (slug ∈ product_slug <$> rows)).
Qed.

Lemma sum_list_with_add {B : Type} (f g : B -> nat) (l : list B) :
  sum_list_with (fun x => (f x + g x)%nat) l
  = (sum_list_with f l + sum_list_with g l)%nat.
Proof. induction l as [|x l IH]; simpl; [done|]. rewrite IH. lia. Qed.

Lemma sum_list_with_ext {B : Type} (f g : B -> nat) (l : list B) :
  (forall x, f x = g x) -> sum_list_with f l = sum_list_with g l.
Proof. intros H. induction l as [|x l IH]; simpl; [done|]. by rewrite H, IH. Qed.

Lemma sum_list_with_fst {B : Type} (f : pystr -> nat) (l : list (pystr * B)) :
  sum_list_with (fun kv => f kv.1) l = sum_list_with f l.*1.
Proof. induction l as [|x l IH]; simpl; [done|]. by rewrite IH. Qed.

Lemma sum_list_indicator (x : pystr) (ks : list pystr) :
  NoDup ks ->
  sum_list_with (fun k => if decide (x = k) then 1%nat else 0%nat) ks
  = (if decide (x ∈ ks) then 1%nat else 0%nat).
Proof.
  induction 1 as [|k ks Hk Hnd IH]; cbn [sum_list_with].
  - by rewrite decide_False by apply not_elem_of_nil.
  - rewrite IH. destruct (decide (x = k)) as [->|Hne].
    + rewrite decide_False by done. by rewrite decide_True by left.
    + destruct (decide (x ∈ ks)) as [Hin|Hin].
      * by rewrite decide_True by (by right).
      * rewrite decide_False; [done|]. by intros [?|?]%elem_of_cons.
Qed.

(** Counting the rows of each key of a duplicate-free list of keys that
    covers them counts every row once. *)
Lemma sum_with_slug_lengths (ks : list pystr) (rows : list Item) :
  NoDup ks -> Forall (fun r => product_slug r ∈ ks) rows ->
  sum_list_with (fun k => length (with_slug k rows)) ks = length rows.
Proof.
  intros Hnd. induction 1 as [|r rows Hr Hrows IH].
  - unfold with_slug. clear Hnd. induction ks as [|k ks IHk]; [done|].
    simpl. apply IHk.
  - simpl. rewrite <- IH.
    assert (H1 : sum_list_with
                   (fun k => if decide (product_slug r = k) then 1%nat else 0%nat)
                   ks = 1%nat).
    { rewrite sum_list_indicator by done. by rewrite decide_True. }
    transitivity
      (sum_list_with
         (fun k => if decide (product_slug r = k) then 1%nat else 0%nat) ks
       + sum_list_with (fun k => length (with_slug k rows)) ks)%nat;
      [|by rewrite H1].
    rewrite <- sum_list_with_add.
    apply sum_list_with_ext. intros k. unfold with_slug.
    rewrite filter_cons. by destruct (decide (product_slug r = k)).
Qed.

(** X11. No record is lost or counted twice: the lengths of the offer lists
    of the products add up to the number of records. *)
Theorem offers_count_is_records_count (rt : PyRuntime) (rows : list Item) :
  let catalog := group_by_product rows in
  sum_list_with (fun kv : pystr * Product =>
                   length (default [] (offers catalog !! kv.1)))
                (products catalog)
  = length rows.
Proof.
  cbv zeta.
  destruct (products_keys_aux rows) as (Hnd & Hcover).
  rewrite <- (sum_with_slug_lengths _ rows Hnd Hcover).
  rewrite (sum_list_with_fst
             (fun k => length (default [] (offers (group_by_product rows) !! k)))).
  apply sum_list_with_ext. intros k.
  by rewrite group_by_product_offers, length_fmap.
Qed.

(** X12. Reconciling two feeds one after the other is reconciling each and
    joining the results: for every slug the offers of the joint feed are
    those of the first feed followed by those of the second, and its product
    is the one the first feed gives, or else the one the second gives. *)
Theorem catalog_of_joined_feeds (rt : PyRuntime) (rows1 rows2 : list Item)
    (slug : pystr) :
  default [] (offers (group_by_product (rows1 ++ rows2)) !! slug)
  = default [] (offers (group_by_product rows1) !! slug)
    ++ default [] (offers (group_by_product rows2) !! slug)
  /\ dict_get slug (products (group_by_product (rows1 ++ rows2)))
     = match dict_get slug (products (group_by_product rows1)) with
       | Some p => Some p
       | None => dict_get slug (products (group_by_product rows2))
       end.
Proof.
  rewrite !group_by_product_offers, !group_by_product_product.
  unfold with_slug. rewrite filter_app, fmap_app. split; [done|].
  by destruct (filter _ rows1).
Qed.

(** X13. Every offer of a catalog built from a feed comes from a record of
    that feed with the same slug: it has a merchant, a url, a price above 0,
    and its total is its price plus its shipping. *)
Theorem catalog_offers_are_valid (rt : PyRuntime) (tick : nat)
    (rows : list (gmap pystr pystr)) (slug : pystr) (offs : list Offer)
    (o : Offer) :
  offers (group_by_product (normalize_rows tick rows).1) !! slug = Some offs ->
  o ∈ offs ->
  (exists item, item ∈ (normalize_rows tick rows).1
      /\ product_slug item = slug /\ o = offer_of item)
  /\ o_merchant o <> [] /\ o_url o <> []
  /\ fltb fzero (o_price o) = true
  /\ o_total o = fadd (o_price o) (o_shipping o).
Proof.
  intros Hoffs Ho.
  pose proof (group_by_product_offers (normalize_rows tick rows).1 slug) as H.
  rewrite Hoffs in H. simpl in H. subst offs.
  apply list_elem_of_fmap in Ho as (item & -> & Hitem).
  apply list_elem_of_filter in Hitem as [Hslug Hitem].
  split; [by exists item|].
  apply normalize_rows_accepted in Hitem. unfold accepted in Hitem.
  apply andb_prop in Hitem as [Hitem Hu]. apply andb_prop in Hitem as [Hitem Hp].
  apply andb_prop in Hitem as [_ Hm]. simpl.
  by rewrite <- !truthy_true.
Qed.

Lemma catalog_offers_are_valid_witness :
  exists offs o,
    offers (@group_by_product Ref.runtime
              (@normalize_rows Ref.runtime 0 bosch_feed).1)
      !! py "bosch-gsr-12" = Some offs
    /\ o ∈ offs
    /\ o_merchant o = py "alpha"
    /\ fltb fzero (o_price o) = true
    /\ o_total o = fadd (o_price o) (o_shipping o).
Proof.
  destruct (offers (@group_by_product Ref.runtime
                      (@normalize_rows Ref.runtime 0 bosch_feed).1)
            !! py "bosch-gsr-12") as [offs|] eqn:E;
    [|vm_compute in E; discriminate].
  destruct offs as [|o offs]; [vm_compute in E; discriminate|].
  exists (o :: offs), o. split; [reflexivity|].
  assert (Ho : o ∈ o :: offs) by left. split; [exact Ho|].
  destruct (catalog_offers_are_valid Ref.runtime 0 bosch_feed _ _ o E Ho)
    as (_ & _ & _ & Hp & Ht).
  split; [|by split]. vm_compute in E. by injection E as <- _.
Defined.

(** ** Stable sorting *)

Section StableSort.
Context {A : Type} (lt : A -> A -> bool).

Lemma insert_with_perm x l : insert_with lt x l ≡ₚ x :: l.
Proof.
  induction l as [|y l IH]; simpl; [done|].
  destruct (lt y x); [|done]. rewrite IH. apply Permutation_swap.
Qed.

Lemma sorted_with_perm l : sorted_with lt l ≡ₚ l.
Proof.
  induction l as [|x l IH]; simpl; [done|].
  by rewrite insert_with_perm, IH.
Qed.

(** Elements that [lt] does not tell apart keep their order. *)
Lemma insert_with_filter (Q : A -> Prop) `{!forall x, Decision (Q x)} x l :
  (forall a b, Q a -> Q b -> lt a b = false) ->
  filter Q (insert_with lt x l) = filter Q (x :: l).
Proof.
  intros Hq. induction l as [|y l IH]; simpl; [done|].
  destruct (lt y x) eqn:E; [|done].
  rewrite !filter_cons in *. destruct (decide (Q y)) as [Hy|Hy].
  - destruct (decide (Q x)) as [Hx|Hx].
    + rewrite (Hq y x Hy Hx) in E. discriminate.
    + by rewrite IH.
  - done.
Qed.

Lemma sorted_with_stable (Q : A -> Prop) `{!forall x, Decision (Q x)} l :
  (forall a b, Q a -> Q b -> lt a b = false) ->
  filter Q (sorted_with lt l) = filter Q l.
Proof.
  intros Hq. induction l as [|x l IH]; simpl; [done|].
  rewrite insert_with_filter by done. by rewrite !filter_cons, IH.
Qed.

(** Where [lt] is asymmetric and "not below" is transitive, the result is
    sorted: no element is below an earlier one. *)
Lemma sorted_with_sorted (D : A -> Prop) l :
  (forall a b, lt a b = true -> lt b a = false) ->
  (forall a b c, D a -> D b -> D c ->
     lt b a = false -> lt c b = false -> lt c a = false) ->
  Forall D l ->
  StronglySorted (fun a b => lt b a = false) (sorted_with lt l).
Proof.
  intros Hasym Htrans. induction 1 as [|x l Hx Hl IH]; simpl; [constructor|].
  assert (Hd : Forall D (sorted_with lt l)) by (by rewrite sorted_with_perm).
  revert IH Hd. generalize (sorted_with lt l). clear l Hl.
  induction l as [|y l IHl]; intros Hs Hd; simpl.
  - by repeat constructor.
  - apply StronglySorted_cons in Hs as [Hy Hs].
    apply Forall_cons in Hd as [Hdy Hd].
    destruct (lt y x) eqn:E.
    + apply StronglySorted_cons. split; [|by apply IHl].
      rewrite insert_with_perm. constructor; [by apply Hasym | done].
    + apply StronglySorted_cons. split.
      * constructor; [done|].
        rewrite Forall_forall in Hy, Hd |- *. intros z Hz.
        by apply (Htrans x y z); auto.
      * by apply StronglySorted_cons.
Qed.

End StableSort.

Lemma StronglySorted_impl_elem {A : Type} (R R' : A -> A -> Prop) (l : list A) :
  (forall a b, a ∈ l -> b ∈ l -> R a b -> R' a b) ->
  StronglySorted R l -> StronglySorted R' l.
Proof.
  intros Himpl Hs. induction Hs as [|x l Hs IH Hx]; [constructor|].
  constructor.
  - apply IH. intros a b Ha Hb. apply Himpl; by right.
  - rewrite Forall_forall in Hx |- *. intros y Hy.
    apply Himpl; [left | by right | by apply Hx].
Qed.

Lemma py_sorted_as_sorted_with {A : Type} (key : A -> float) (l : list A) :
  py_sorted key l = sorted_with (fun a b => fltb (key a) (key b)) l.
Proof.
  induction l as [|x l IH]; simpl; [done|]. fold (py_sorted key l).
  rewrite IH. generalize (sorted_with (fun a b => fltb (key a) (key b)) l).
  intros s. induction s as [|y s IHs]; simpl; [done|]. by rewrite IHs.
Qed.

Lemma fltb_asym x y : fltb x y = true -> fltb y x = false.
Proof. float_order. Qed.

Lemma not_fltb_trans x y z :
  is_nan x = false -> is_nan y = false -> is_nan z = false ->
  fltb y x = false -> fltb z y = false -> fltb z x = false.
Proof. float_order. Qed.

Lemma feqb_not_fltb x y v :
  SFeqb x v = true -> SFeqb y v = true -> fltb x y = false.
Proof. unfold SFeqb. float_order. Qed.

(** X14. When no total is NaN, the offer rows of a product page are the
    offers of the product, each once, in ascending order of total, and
    offers of equal total stand in the order of the feed. *)
Theorem product_page_offers_sorted (slug : pystr) (product : Product)
    (offs : list Offer) (page : ProductPage) :
  render_product slug product offs = Ok page ->
  Forall (fun o => is_nan (o_total o) = false) offs ->
  exists offs_sorted,
    pg_offer_rows page = offer_row <$> offs_sorted
    /\ offs_sorted ≡ₚ offs
    /\ StronglySorted (fun a b => fleb (o_total a) (o_total b) = true) offs_sorted
    /\ forall v, filter (fun o => SFeqb (o_total o) v = true) offs_sorted
                 = filter (fun o => SFeqb (o_total o) v = true) offs.
Proof.
  intros Hpage Hnan. exists (py_sorted o_total offs).
  split; [|split; [apply py_sorted_perm|split]].
  - unfold render_product in Hpage.
    destruct (specs_items (p_specs product)); [|done].
    destruct (render_product_aggregate offs); [|done].
    by injection Hpage as <-.
  - rewrite py_sorted_as_sorted_with.
    assert (Hnan' : Forall (fun o => is_nan (o_total o) = false)
                      (sorted_with (fun a b => fltb (o_total a) (o_total b)) offs))
      by (by rewrite sorted_with_perm).
    pose proof (sorted_with_sorted (fun a b => fltb (o_total a) (o_total b))
                  (fun o => is_nan (o_total o) = false) offs) as Hs.
    eapply StronglySorted_impl_elem; [|apply Hs].
    + intros a b Ha Hb Hab. rewrite Forall_forall in Hnan'.
      apply not_fltb_fleb; auto.
    + intros a b. apply fltb_asym.
    + intros a b c. apply not_fltb_trans.
    + done.
  - intros v. rewrite py_sorted_as_sorted_with.
    apply sorted_with_stable. intros a b. apply feqb_not_fltb.
Qed.

(** ** The order of strings and of the listing *)

Lemma str_ltb_irrefl a : str_ltb a a = false.
Proof. induction a as [|x a IH]; simpl; [done|]. by rewrite N.ltb_irrefl. Qed.

Lemma str_ltb_trans a b c :
  str_ltb a b = true -> str_ltb b c = true -> str_ltb a c = true.
Proof.
  revert b c. induction a as [|x a IH]; intros [|y b] [|z c]; simpl; try done.
  destruct (N.ltb_spec x y), (N.ltb_spec y x), (N.ltb_spec y z),
    (N.ltb_spec z y), (N.ltb_spec x z), (N.ltb_spec z x);
    try done; try lia. apply IH.
Qed.

Lemma str_ltb_total a b : a = b \/ str_ltb a b = true \/ str_ltb b a = true.
Proof.
  revert b. induction a as [|x a IH]; intros [|y b]; simpl; auto.
  destruct (N.ltb_spec x y), (N.ltb_spec y x); auto; try lia.
  assert (x = y) as -> by lia.
  destruct (IH b) as [->|[?|?]]; auto.
Qed.

Lemma str_ltb_asym a b : str_ltb a b = true -> str_ltb b a = false.
Proof.
  intros H. destruct (str_ltb b a) eqn:E; [|done].
  by rewrite <- (str_ltb_irrefl a), <- (str_ltb_trans a b a H E).
Qed.

Lemma str_not_ltb_trans a b c :
  str_ltb b a = false -> str_ltb c b = false -> str_ltb c a = false.
Proof.
  intros Hab Hbc. destruct (str_ltb c a) eqn:E; [|done].
  destruct (str_ltb_total b c) as [->|[H|H]]; [congruence| |congruence].
  by rewrite (str_ltb_trans b c a H E) in Hab.
Qed.

Lemma pair_ltb_asym a b : pair_ltb a b = true -> pair_ltb b a = false.
Proof.
  unfold pair_ltb. destruct (decide (a.1 = b.1)) as [E|E].
  - rewrite decide_True by done. apply str_ltb_asym.
  - rewrite decide_False by done. apply str_ltb_asym.
Qed.

Lemma pair_not_ltb_trans a b c :
  pair_ltb b a = false -> pair_ltb c b = false -> pair_ltb c a = false.
Proof.
  unfold pair_ltb.
  destruct (decide (b.1 = a.1)) as [Eba|Eba],
    (decide (c.1 = b.1)) as [Ecb|Ecb], (decide (c.1 = a.1)) as [Eca|Eca];
    intros Hab Hbc;
    first [ congruence
          | by eapply str_not_ltb_trans
          | exfalso; destruct (str_ltb_total a.1 b.1) as [?|[?|?]]; congruence ].
Qed.

Lemma for_each_Ok {A B : Type} (f : A -> result B) (l : list A) :
  Forall (fun x => exists y, f x = Ok y) l ->
  exists ys, for_each f l = Ok ys /\ Forall2 (fun x y => f x = Ok y) l ys.
Proof.
  induction 1 as [|x l [y Hy] Hl (ys & Hys & Hall)]; simpl.
  - exists []. by split; [|constructor].
  - exists (y :: ys). rewrite Hy, Hys. split; [done|]. by constructor.
Qed.

Lemma Forall2_impl_elem {A B : Type} (P Q : A -> B -> Prop) l k :
  Forall2 P l k -> (forall x y, x ∈ l -> P x y -> Q x y) -> Forall2 Q l k.
Proof.
  induction 1 as [|x y l k Hxy Hlk IH]; intros Himpl; constructor.
  - apply Himpl; [left | done].
  - apply IH. intros a b Ha. apply Himpl. by right.
Qed.

Section Listing.
Context {rt : PyRuntime}.

Lemma catalog_offers_nonempty rows kv :
  kv ∈ products (group_by_product rows) ->
  default [] (offers (group_by_product rows) !! kv.1)
  = offer_of <$> with_slug kv.1 rows
  /\ with_slug kv.1 rows <> [].
Proof.
  intros Hkv. split; [apply group_by_product_offers|].
  intros Hnil%with_slug_nil. apply Hnil.
  assert (Hk : kv.1 ∈ (products (group_by_product rows)).*1)
    by (apply list_elem_of_fmap; by exists kv).
  unfold group_by_product in Hk.
  rewrite group_from_keys, first_seen_from_elem in Hk. simpl in Hk.
  destruct Hk as [Hk|Hk]; [by apply elem_of_nil in Hk | done].
Qed.

End Listing.

(** X15. On the catalog of a feed [render_index] raises nothing and gives
    one row per product: the products are taken in ascending order of
    (category, name), products that agree on both in the order in which
    their slugs first occur, and each row shows the slug and name of its
    product and the number of records with that slug. *)
Theorem listing_rows_sorted (rt : PyRuntime) (rows : list Item) :
  let catalog := group_by_product rows in
  exists ordered idx,
    render_index (products catalog) (offers catalog) = Ok idx
    /\ ordered ≡ₚ products catalog
    /\ StronglySorted (fun kv1 kv2 => index_order kv2 kv1 = false) ordered
    /\ (forall k, filter (fun kv => index_key kv = k) ordered
                  = filter (fun kv => index_key kv = k) (products catalog))
    /\ Forall2 (fun kv row =>
                  ir_slug row = kv.1 /\ ir_name row = p_name kv.2
                  /\ ir_count row = length (with_slug kv.1 rows))
               ordered idx.
Proof.
  cbv zeta. set (catalog := group_by_product rows).
  exists (sorted_with index_order (products catalog)).
  assert (Hperm := sorted_with_perm index_order (products catalog)).
  destruct (for_each_Ok (index_row (offers catalog))
              (sorted_with index_order (products catalog)))
    as (idx & Hidx & Hrows).
  { rewrite Hperm. apply Forall_forall. intros kv Hkv.
    destruct (catalog_offers_nonempty rows kv Hkv) as [Hoffs Hne].
    unfold index_row. fold catalog in Hoffs. rewrite Hoffs.
    destruct (render_index_aggregate_is_Some (offer_of <$> with_slug kv.1 rows))
      as [agg ->]; [by destruct (with_slug kv.1 rows) | by eexists]. }
  exists idx. split; [exact Hidx|]. split; [exact Hperm|].
  split; [|split].
  - apply (sorted_with_sorted index_order (fun _ => True)).
    + intros a b. apply pair_ltb_asym.
    + intros a b c _ _ _. apply pair_not_ltb_trans.
    + by apply Forall_forall.
  - intros k. apply sorted_with_stable. intros a b Ha Hb.
    unfold index_order. rewrite Ha, Hb. unfold pair_ltb.
    rewrite decide_True by done. apply str_ltb_irrefl.
  - eapply Forall2_impl_elem; [exact Hrows|].
    intros kv row Hkv Hrow. rewrite Hperm in Hkv.
    destruct (catalog_offers_nonempty rows kv Hkv) as [Hoffs Hne].
    unfold index_row in Hrow. fold catalog in Hoffs. rewrite Hoffs in Hrow.
    unfold render_index_aggregate in Hrow.
    destruct (py_min o_total (offer_of <$> with_slug kv.1 rows)); [|done].
    simpl in Hrow. injection Hrow as <-. simpl.
    by rewrite length_fmap.
Qed.

(** ** The sitemap and the build *)

Lemma product_url_inj (base_url k1 k2 : pystr) :
  base_url ++ py "products/" ++ k1 ++ py ".html"
  = base_url ++ py "products/" ++ k2 ++ py ".html" -> k1 = k2.
Proof.
  intros H. apply app_inv_head in H. apply app_inv_head in H.
  by apply app_inv_tail in H.
Qed.

(** X16. The sitemap of the catalog of a feed lists the url of the listing
    and then one url per product, in the order in which the slugs first
    occur, and no url twice. *)
Theorem sitemap_lists_every_page_once (rt : PyRuntime) (base_url : pystr)
    (rows : list Item) :
  let urls := sitemap_urls base_url (products (group_by_product rows)) in
  urls = (base_url ++ py "index.html")
         :: ((fun slug => base_url ++ py "products/" ++ slug ++ py ".html")
               <$> first_seen_slugs (product_slug <$> rows))
  /\ length urls = S (length (products (group_by_product rows)))
  /\ NoDup urls.
Proof.
  cbv zeta.
  assert (Hurls : sitemap_urls base_url (products (group_by_product rows))
    = (base_url ++ py "index.html")
      :: ((fun slug => base_url ++ py "products/" ++ slug ++ py ".html")
            <$> (products (group_by_product rows)).*1)).
  { unfold sitemap_urls. f_equal. by rewrite <- list_fmap_compose. }
  destruct (products_keys_aux rows) as [Hnd _].
  split; [|split].
  - rewrite Hurls. unfold group_by_product. by rewrite group_from_keys.
  - unfold sitemap_urls. simpl. by rewrite length_fmap.
  - rewrite Hurls. apply NoDup_cons. split.
    + intros (k & Hk & _)%list_elem_of_fmap.
      apply app_inv_head in Hk. discriminate.
    + apply NoDup_fmap_2; [|done]. intros k1 k2. apply product_url_inj.
Qed.




Section BuildTrace.
Context {rt : PyRuntime}.



End BuildTrace.





Lemma product_page_offers_sorted_witness :
  exists p page,
    dict_get (py "bosch-gsr-12")
      (products (@group_by_product Ref.runtime
                   (@normalize_rows Ref.runtime 0 bosch_feed).1)) = Some p
    /\ render_product (py "bosch-gsr-12") p bosch_offers = Ok page
    /\ Forall (fun o => is_nan (o_total o) = false) bosch_offers
    /\ exists offs_sorted,
         pg_offer_rows page = offer_row <$> offs_sorted
         /\ offs_sorted ≡ₚ bosch_offers
         /\ StronglySorted (fun a b => fleb (o_total a) (o_total b) = true)
                           offs_sorted.
Proof.
  destruct (dict_get (py "bosch-gsr-12")
              (products (@group_by_product Ref.runtime
                           (@normalize_rows Ref.runtime 0 bosch_feed).1)))
    as [p|] eqn:Ep; [|vm_compute in Ep; discriminate].
  destruct (render_product (py "bosch-gsr-12") p bosch_offers)
    as [page|e] eqn:Epage;
    [|vm_compute in Ep; injection Ep as <-; vm_compute in Epage; discriminate].
  assert (Hnan : Forall (fun o => is_nan (o_total o) = false) bosch_offers)
    by (vm_compute; repeat constructor).
  exists p, page. split; [reflexivity|]. split; [exact Epage|].
  split; [exact Hnan|].
  destruct (product_page_offers_sorted _ _ _ _ Epage Hnan)
    as (sorted & Hrows & Hperm & Hsorted & _).
  by exists sorted.
Defined.

(** ** The renderers on any catalog *)

Lemma for_each_Raise {A B : Type} (f : A -> result B) (l : list A) (x : A)
    (e : PyError) :
  x ∈ l -> f x = Raise e ->
  (forall y e', y ∈ l -> f y = Raise e' -> e' = e) ->
  for_each f l = Raise e.
Proof.
  intros Hx Hfx Honly. induction l as [|y l IH]; [by apply elem_of_nil in Hx|].
  simpl. destruct (f y) as [b|e'] eqn:Ey.
  - rewrite IH; [done| |].
    + apply elem_of_cons in Hx as [->|Hx]; [congruence | done].
    + intros z e'' Hz. apply Honly. by right.
  - f_equal. apply (Honly y); [left | done].
Qed.

(** X19. [render_index] gives one row per product when every product has a
    non-empty offer list, and raises the [ValueError] of [min] as soon as
    one product has an empty list or none. *)
Theorem render_index_errors (prods : list (pystr * Product))
    (offs_of : gmap pystr (list Offer)) :
  (Forall (fun kv => default [] (offs_of !! kv.1) <> []) prods ->
   exists idx, render_index prods offs_of = Ok idx /\ length idx = length prods)
  /\ (~ Forall (fun kv => default [] (offs_of !! kv.1) <> []) prods ->
      render_index prods offs_of = Raise ValueError).
Proof.
  assert (Hrow : forall kv,
            (default [] (offs_of !! kv.1) <> [] ->
             exists row, index_row offs_of kv = Ok row)
            /\ (default [] (offs_of !! kv.1) = [] ->
                index_row offs_of kv = Raise ValueError)
            /\ (forall e, index_row offs_of kv = Raise e -> e = ValueError)).
  { intros kv. unfold index_row. split; [|split].
    - intros Hne. destruct (render_index_aggregate_is_Some _ Hne) as [agg ->].
      by eexists.
    - by intros ->.
    - intros e. destruct (render_index_aggregate _); [done|]. by intros [= <-]. }
  split.
  - intros Hall. unfold render_index.
    destruct (for_each_Ok (index_row offs_of) (sorted_with index_order prods))
      as (idx & Hidx & Hrows).
    + rewrite sorted_with_perm. eapply Forall_impl; [exact Hall|].
      intros kv. by destruct (Hrow kv) as (Hok & _).
    + exists idx. split; [done|].
      apply Forall2_length in Hrows. rewrite <- Hrows.
      by rewrite sorted_with_perm.
  - intros Hnot. apply not_Forall_Exists in Hnot; [|solve_decision].
    apply Exists_exists in Hnot as (kv & Hkv & Hempty).
    unfold render_index. apply (for_each_Raise _ _ kv).
    + by rewrite sorted_with_perm.
    + destruct (Hrow kv) as (_ & Hraise & _). apply Hraise.
      destruct (decide (default [] (offs_of !! kv.1) = [])) as [|Hne]; [done|].
      by destruct Hempty.
    + intros y e' _ Hy. destruct (Hrow y) as (_ & _ & Honly). by apply Honly.
Qed.

Lemma render_index_errors_witness :
  let prods := products (@group_by_product Ref.runtime
                           (@normalize_rows Ref.runtime 0 bosch_feed).1) in
  ~ Forall (fun kv => default [] ((∅ : gmap pystr (list Offer)) !! kv.1) <> [])
      prods
  /\ render_index prods ∅ = Raise ValueError.
Proof.
  cbv zeta.
  assert (H : ~ Forall
                (fun kv : pystr * Product =>
                   default [] ((∅ : gmap pystr (list Offer)) !! kv.1) <> [])
                (products (@group_by_product Ref.runtime
                             (@normalize_rows Ref.runtime 0 bosch_feed).1))).
  { vm_compute. intros H. apply Forall_cons in H as [H _]. by apply H. }
  split; [exact H|].
  exact (proj2 (render_index_errors _ _) H).
Defined.

